(** * PDF-Tiler: the tiling geometry and the blank-tile classifier of [app.py]

    A shallow embedding of the core of [src/app.py]:
    - [tile_image] (lines 182-222), the overlapping fixed-size tiler,
    - [is_blank_tile], [is_border_frame], [detect_rectangular_border]
      (lines 39-180), the blank / border-frame classifier,
    - the page loop of [upload_file] (lines 291-321) with
      [optimize_for_roboflow] (lines 224-230), which tiles every page,
      classifies every tile and saves the tiles that are kept.

    Python integers are unbounded and are modelled by [Z]; Python's [//] is
    floor division and agrees with [Z.div] whenever the divisor is non-zero.
    Python floats are IEEE binary64 values and are modelled by the Standard
    Library's [spec_float] at precision 53 and maximal exponent 1024.
    Exceptions are modelled by an error monad. *)

From Stdlib Require Import ZArith List Bool Lia.
From Stdlib Require Import Floats.SpecFloat.
From Stdlib Require String Ascii DecimalString DecimalZ DecimalPos.
Import ListNotations.
Open Scope Z_scope.

(** ** The fragment of the Python runtime that the code uses *)

Module Py.

(** The exceptions that the modelled code can raise. *)
Inductive exn : Type :=
| ZeroDivisionError
| ValueError
| OverflowError.

Inductive result (A : Type) : Type :=
| Ok (a : A)
| Raise (e : exn).
Arguments Ok {A} a.
Arguments Raise {A} e.

Definition bind {A B} (r : result A) (k : A -> result B) : result B :=
  match r with
  | Ok a => k a
  | Raise e => Raise e
  end.

(** [a // b] on Python ints. *)
Definition floordiv (a b : Z) : result Z :=
  if b =? 0 then Raise ZeroDivisionError else Ok (a / b).

(** [range(n)]: the integers [0, 1, ..., n-1]; empty when [n <= 0]. *)
Definition range (n : Z) : list Z :=
  map Z.of_nat (seq 0 (Z.to_nat n)).

(** [for x in xs: body], where the body updates the loop state [s] and may
    raise; an exception leaves the loop at once. *)
Fixpoint for_each {A S : Type} (xs : list A) (body : A -> S -> result S)
         (s : S) : result S :=
  match xs with
  | [] => Ok s
  | x :: xs' =>
      match body x s with
      | Ok s' => for_each xs' body s'
      | Raise e => Raise e
      end
  end.

End Py.

Import Py.

Notation "x <- c ;; k" := (bind c (fun x => k))
  (at level 61, c at next level, right associativity).

(** ** The fragment of PIL (Pillow) that the code uses

    An image is its size together with the pixel found at each coordinate
    ([Image.getpixel]); only the pixels inside the size are meaningful. *)

Module PIL.

(** An RGB sample, 8 bits per channel. *)
Definition pixel : Type := (Z * Z * Z)%type.

Definition white : pixel := (255, 255, 255).
Definition black : pixel := (0, 0, 0).

Record Image : Type := mkImage {
  im_width : Z;
  im_height : Z;
  getpixel : Z -> Z -> pixel
}.

(** [image.size] *)
Definition size (im : Image) : Z * Z := (im_width im, im_height im).

Definition size_eqb (a b : Z * Z) : bool :=
  (fst a =? fst b) && (snd a =? snd b).

Definition inside (im : Image) (x y : Z) : bool :=
  (0 <=? x) && (x <? im_width im) && (0 <=? y) && (y <? im_height im).

(** [Image.new('RGB', size, color)]; Pillow refuses a negative size. *)
Definition new (sz : Z * Z) (color : pixel) : result Image :=
  let '(w, h) := sz in
  if (w <? 0) || (h <? 0) then Raise ValueError
  else Ok (mkImage w h (fun _ _ => color)).

(** The pixels of [im] seen through the box [(x0, y0, x1, y1)]; the part
    of the box that lies outside the image reads as zero. *)
Definition crop_region (im : Image) (box : Z * Z * Z * Z) : Image :=
  let '(x0, y0, x1, y1) := box in
  mkImage (x1 - x0) (y1 - y0)
    (fun x y =>
       if inside im (x + x0) (y + y0)
       then getpixel im (x + x0) (y + y0)
       else black).

(** [image.crop((x0, y0, x1, y1))], the box being (left, upper, right,
    lower): a fresh image of size [(x1 - x0, y1 - y0)].  Pillow refuses a
    box whose right edge is left of its left edge, or whose lower edge is
    above its upper edge. *)
Definition crop (im : Image) (box : Z * Z * Z * Z) : result Image :=
  let '(x0, y0, x1, y1) := box in
  if x1 <? x0 then Raise ValueError
  else if y1 <? y0 then Raise ValueError
  else Ok (crop_region im box).

(** [canvas.paste(im, (ox, oy))]: [canvas] with [im] written over it, the
    top-left corner of [im] at [(ox, oy)].  The canvas keeps its size. *)
Definition paste (canvas im : Image) (at_ : Z * Z) : Image :=
  let '(ox, oy) := at_ in
  mkImage (im_width canvas) (im_height canvas)
    (fun x y =>
       if inside im (x - ox) (y - oy)
       then getpixel im (x - ox) (y - oy)
       else getpixel canvas x y).

(** An image given by its rows, for concrete pages. *)
Definition of_rows (w : Z) (rows : list (list pixel)) : Image :=
  mkImage w (Z.of_nat (length rows))
    (fun x y => nth (Z.to_nat x) (nth (Z.to_nat y) rows []) black).

(** A page of one colour. *)
Definition solid (w h : Z) (color : pixel) : Image :=
  mkImage w h (fun _ _ => color).

End PIL.

Import PIL.

(** ** The tiler: [tile_image] *)

Module Tiler.

(** An emitted triple [(tile, row, col)]. *)
Definition emitted : Type := (Image * Z * Z)%type.

(** The crop box of grid cell [(row, col)]: lines 199-209 of the loop body.
    The result is [(left, top, right, bottom)]. *)
Definition tile_box (width height tile_size step row col : Z)
  : Z * Z * Z * Z :=
  let left := col * step in
  let top := row * step in
  let right := Z.min (left + tile_size) width in
  let bottom := Z.min (top + tile_size) height in
  let left :=
    if (right - left <? tile_size) && (0 <? col)
    then Z.max 0 (right - tile_size) else left in
  let top :=
    if (bottom - top <? tile_size) && (0 <? row)
    then Z.max 0 (bottom - tile_size) else top in
  (left, top, right, bottom).

(** Lines 214-218: pad a tile whose size is not [tile_size x tile_size]. *)
Definition pad_tile (tile : Image) (tile_size : Z) : result Image :=
  if negb (size_eqb (size tile) (tile_size, tile_size)) then
    padded <- new (tile_size, tile_size) white ;;
    Ok (paste padded tile (0, 0))
  else Ok tile.

(** The body of the inner loop, lines 199-220. *)
Definition tile_cell (image : Image) (tile_size step row col : Z)
           (tiles : list emitted) : result (list emitted) :=
  let '(width, height) := size image in
  tile <- crop image (tile_box width height tile_size step row col) ;;
  tile <- pad_tile tile tile_size ;;
  Ok (tiles ++ [(tile, row, col)]).

(** [tile_image(image, tile_size, overlap)], lines 182-222.  The list
    [tiles] is the loop state; [tiles.append] adds at the end. *)
Definition tile_image (image : Image) (tile_size overlap : Z)
  : result (list emitted) :=
  let '(width, height) := size image in
  let tiles := [] in
  let step := tile_size - overlap in
  qc <- floordiv (width - overlap + step - 1) step ;;
  let cols := Z.max 1 qc in
  qr <- floordiv (height - overlap + step - 1) step ;;
  let rows := Z.max 1 qr in
  for_each (range rows)
    (fun row tiles =>
       for_each (range cols)
         (fun col tiles => tile_cell image tile_size step row col tiles)
         tiles)
    tiles.

End Tiler.

Import Tiler.

(** ** Python floats: IEEE binary64 *)

Module Float.

Definition float : Type := spec_float.

Definition prec : Z := 53.
Definition emax : Z := 1024.

(** Conversion of an integer to the nearest double (ties to even). *)
Definition of_int (z : Z) : float := binary_normalize prec emax z 0 false.

Definition mul : float -> float -> float := SFmul prec emax.
Definition div : float -> float -> float := SFdiv prec emax.
Definition ltb : float -> float -> bool := SFltb.
Definition leb : float -> float -> bool := SFleb.

(** A decimal literal [n / d] denotes the double nearest to the quotient,
    which is what the correctly rounded division of the two integers
    yields as long as both are below [2^53]. *)
Definition lit_0_1 : float := Eval vm_compute in div (of_int 1) (of_int 10).
Definition lit_0_8 : float := Eval vm_compute in div (of_int 8) (of_int 10).
Definition lit_0_98 : float :=
  Eval vm_compute in div (of_int 98) (of_int 100).
Definition lit_0_001 : float :=
  Eval vm_compute in div (of_int 1) (of_int 1000).
Definition lit_0_002 : float :=
  Eval vm_compute in div (of_int 2) (of_int 1000).

(** [int(x)]: truncation towards zero; [int(inf)] raises [OverflowError]
    and [int(nan)] raises [ValueError]. *)
Definition to_int (x : float) : result Z :=
  match x with
  | S754_zero _ => Ok 0
  | S754_infinity _ => Raise OverflowError
  | S754_nan => Raise ValueError
  | S754_finite s m e =>
      let magnitude :=
        if 0 <=? e then Z.shiftl (Zpos m) e else Z.shiftr (Zpos m) (- e) in
      Ok (if s then - magnitude else magnitude)
  end.

End Float.

(** ** The fragment of NumPy that the code uses

    A two-dimensional array is the list of its rows.  An array without rows
    forgets its number of columns; every use below multiplies the two
    dimensions or takes their minimum, which is zero either way. *)

Module Np.

Definition len {A} (l : list A) : Z := Z.of_nat (length l).

(** [a.shape] of a two-dimensional array: [(height, width)]. *)
Definition shape {A} (a : list (list A)) : Z * Z := (len a, len (hd [] a)).

(** [a.size] *)
Definition size2 {A} (a : list (list A)) : Z :=
  fold_right (fun row acc => len row + acc) 0 a.

Definition map2d {A B} (f : A -> B) (a : list (list A)) : list (list B) :=
  map (map f) a.

Definition zip_with {A B C} (f : A -> B -> C) (l1 : list A) (l2 : list B)
  : list C :=
  map (fun p => f (fst p) (snd p)) (combine l1 l2).

Fixpoint imap_from {A B} (i : Z) (f : Z -> A -> B) (l : list A) : list B :=
  match l with
  | [] => []
  | a :: l' => f i a :: imap_from (i + 1) f l'
  end.

(** Map with the index of each element. *)
Definition imap {A B} (f : Z -> A -> B) (l : list A) : list B :=
  imap_from 0 f l.

(** [np.sum] of a boolean array: the number of [True] entries. *)
Definition count_true (a : list (list bool)) : Z :=
  fold_right
    (fun row acc => len (filter (fun b : bool => b) row) + acc) 0 a.

(** [a & b] on boolean arrays of one shape. *)
Definition and2d (a b : list (list bool)) : list (list bool) :=
  zip_with (zip_with andb) a b.

(** [~a] on a boolean array. *)
Definition not2d (a : list (list bool)) : list (list bool) :=
  map2d negb a.

(** [a > k] *)
Definition gt2d (a : list (list Z)) (k : Z) : list (list bool) :=
  map2d (fun v => k <? v) a.

(** Subtraction of [uint8] samples wraps around modulo 256. *)
Definition sub_u8 (b a : Z) : Z := (b - a) mod 256.

(** Differences of consecutive elements, [l[i+1] - l[i]]. *)
Fixpoint diff {A} (sub : A -> A -> A) (l : list A) : list A :=
  match l with
  | a :: (b :: _) as tl => sub b a :: diff sub tl
  | _ => []
  end.

(** [np.diff(a, axis=0)] and [np.diff(a, axis=1)] on a [uint8] array; the
    result is again [uint8]. *)
Definition diff_axis0 (a : list (list Z)) : list (list Z) :=
  diff (fun row_b row_a => zip_with sub_u8 row_b row_a) a.
Definition diff_axis1 (a : list (list Z)) : list (list Z) :=
  map (diff sub_u8) a.

(** [np.abs] leaves an unsigned array as it is. *)
Definition abs_u8 (a : list (list Z)) : list (list Z) := a.

(** A slice bound, normalised against the length as Python does: a
    negative bound counts from the end, and both are clamped. *)
Definition slice_bound (n i : Z) : Z :=
  if i <? 0 then Z.max 0 (n + i) else Z.min i n.

(** The index range [start, stop) of the slice [l[start:stop]]; an omitted
    bound is [None]. *)
Definition slice_range (n : Z) (start stop : option Z) : Z * Z :=
  (match start with Some i => slice_bound n i | None => 0 end,
   match stop with Some i => slice_bound n i | None => n end).

Definition in_slice (n : Z) (start stop : option Z) (i : Z) : bool :=
  let '(lo, hi) := slice_range n start stop in (lo <=? i) && (i <? hi).

(** [l[start:stop]] *)
Definition slice {A} (start stop : option Z) (l : list A) : list A :=
  let '(lo, hi) := slice_range (len l) start stop in
  firstn (Z.to_nat (hi - lo)) (skipn (Z.to_nat lo) l).

(** [a[r0:r1, c0:c1]] *)
Definition slice2d {A} (r0 r1 c0 c1 : option Z) (a : list (list A))
  : list (list A) :=
  map (slice c0 c1) (slice r0 r1 a).

(** [np.zeros_like(a, dtype=bool)] *)
Definition zeros_like {A} (a : list (list A)) : list (list bool) :=
  map2d (fun _ => false) a.

(** [mask[r0:r1, :] = True] and [mask[:, c0:c1] = True] *)
Definition set_rows (r0 r1 : option Z) (mask : list (list bool))
  : list (list bool) :=
  imap (fun i row =>
          if in_slice (len mask) r0 r1 i then map (fun _ => true) row
          else row) mask.
Definition set_cols (c0 c1 : option Z) (mask : list (list bool))
  : list (list bool) :=
  map (fun row =>
         imap (fun j b => if in_slice (len row) c0 c1 j then true else b)
           row) mask.

(** The samples of an array of pixels in C order (row, column, channel). *)
Definition samples (a : list (list pixel)) : list Z :=
  flat_map (flat_map (fun p : pixel =>
                        let '(r, g, b) := p in [r; g; b])) a.

(** [np.array(image)]: shape [(height, width, 3)]. *)
Definition array (image : Image) : list (list pixel) :=
  map (fun y => map (fun x => getpixel image x y)
                  (range (im_width image)))
    (range (im_height image)).

End Np.

(** ** The blank-tile classifier *)

Module Classifier.

Import Float Np.

(** Line 99: [max(int(min(height, width) * 0.1), 10)]. *)
Definition border_thickness (height width : Z) : result Z :=
  n <- to_int (mul (of_int (Z.min height width)) lit_0_1) ;;
  Ok (Z.max n 10).

Section WithStatistics.

(** [np.std] and [np.mean] of the flattened [uint8] array, [np.mean] of
    a list of doubles, and the luminance of one RGB pixel as
    [image.convert('L')] computes it: library code, taken as given. *)
Variable np_std : list Z -> float.
Variable np_mean : list Z -> float.
Variable np_mean_floats : list float -> float.
Variable convert_L : pixel -> Z.

(** Lines 144-180. *)
Definition detect_rectangular_border (gray_array : list (list Z))
           (border_thickness : Z) : bool :=
  let bt := border_thickness in
  let top_strip := slice2d None (Some bt) None None gray_array in
  let bottom_strip := slice2d (Some (- bt)) None None None gray_array in
  let left_strip := slice2d None None None (Some bt) gray_array in
  let right_strip := slice2d None None (Some (- bt)) None gray_array in
  let center :=
    slice2d (Some bt) (Some (- bt)) (Some bt) (Some (- bt)) gray_array in
  if size2 center =? 0 then false
  else
    let border_std :=
      np_mean_floats [np_std (concat top_strip);
                      np_std (concat bottom_strip);
                      np_std (concat left_strip);
                      np_std (concat right_strip)] in
    let center_std := np_std (concat center) in
    if ltb (of_int 15) border_std && ltb center_std (of_int 8) then
      let center_mean := np_mean (concat center) in
      if ltb (of_int 240) center_mean then true else false
    else false.

(** The border mask of lines 102-118, for either gradient map. *)
Definition border_mask (edges : list (list Z)) (bt : Z)
  : list (list bool) :=
  let mask := zeros_like edges in
  let mask := set_rows None (Some bt) mask in
  let mask := set_rows (Some (- bt)) None mask in
  let mask := set_cols None (Some bt) mask in
  let mask := set_cols (Some (- bt)) None mask in
  mask.

(** Lines 91-142. *)
Definition is_border_frame (gray_array edges_h edges_v : list (list Z))
  : result bool :=
  let '(height, width) := shape gray_array in
  border_thickness <- border_thickness height width ;;
  let border_mask_h := border_mask edges_h border_thickness in
  let border_mask_v := border_mask edges_v border_thickness in
  let center_mask_h := not2d border_mask_h in
  let center_mask_v := not2d border_mask_v in
  let border_edges :=
    count_true (and2d (gt2d edges_h 30) border_mask_h)
    + count_true (and2d (gt2d edges_v 30) border_mask_v) in
  let center_edges :=
    count_true (and2d (gt2d edges_h 30) center_mask_h)
    + count_true (and2d (gt2d edges_v 30) center_mask_v) in
  let total_edges := border_edges + center_edges in
  let additional_check :=
    if detect_rectangular_border gray_array border_thickness
    then Ok true
    else Ok false in
  if 0 <? total_edges then
    let border_ratio := div (of_int border_edges) (of_int total_edges) in
    if ltb lit_0_8 border_ratio
       && ltb (of_int center_edges)
            (mul (of_int (width * height)) lit_0_002)
    then Ok true
    else additional_check
  else additional_check.

(** Lines 39-89. *)
Definition is_blank_tile (image : Image) (threshold : float)
  : result bool :=
  let img_array := array image in
  let white_pixels :=
    map2d (fun p : pixel =>
             let '(r, g, b) := p in
             (240 <? r) && (240 <? g) && (240 <? b)) img_array in
  let white_percentage :=
    div (of_int (count_true white_pixels))
      (of_int (im_width image * im_height image)) in
  if ltb threshold white_percentage then Ok true
  else
    let std_dev := np_std (samples img_array) in
    if ltb std_dev (of_int 5) then Ok true
    else
      let gray_array := map2d convert_L img_array in
      let edges_h := abs_u8 (diff_axis0 gray_array) in
      let edges_v := abs_u8 (diff_axis1 gray_array) in
      let significant_edges :=
        count_true (gt2d edges_h 30) + count_true (gt2d edges_v 30) in
      let edge_density :=
        div (of_int significant_edges)
          (of_int (im_width image * im_height image)) in
      if ltb edge_density lit_0_001 then Ok true
      else
        b <- is_border_frame gray_array edges_h edges_v ;;
        if b then Ok true else Ok false.

End WithStatistics.

End Classifier.

Import Float Np Classifier.

(** ** Vocabulary of the specification *)

Module Spec.

(** [ceil(a / b)] for a positive [b]. *)
Definition ceil_div (a b : Z) : Z := - ((- a) / b).

(** The grid dimension as the specification words it:
    [max(1, ceil((extent - overlap) / step))]. *)
Definition grid_dim (extent overlap step : Z) : Z :=
  Z.max 1 (ceil_div (extent - overlap) step).

(** The grid dimension as line 194 computes it. *)
Definition code_grid_dim (extent overlap step : Z) : Z :=
  Z.max 1 ((extent - overlap + step - 1) / step).

(** The cells of a [rows x cols] grid in row-major order: rows ascending
    in the outer position, columns ascending in the inner one. *)
Definition row_major (rows cols : Z) : list (Z * Z) :=
  flat_map (fun row => map (fun col => (row, col)) (range cols))
    (range rows).

(** The grid cell that an emitted triple carries. *)
Definition cell_of (t : emitted) : Z * Z := (snd (fst t), snd t).

(** The pixel [(x, y)] of the page lies in the window [box]. *)
Definition in_box (box : Z * Z * Z * Z) (x y : Z) : Prop :=
  let '(x0, y0, x1, y1) := box in x0 <= x < x1 /\ y0 <= y < y1.

(** The blank canvas of line 216. *)
Definition white_canvas (tile_size : Z) : Image :=
  mkImage tile_size tile_size (fun _ _ => white).

(** The tile that the loop body builds for cell [(row, col)] when neither
    [crop] nor [Image.new] raises. *)
Definition cell_tile (image : Image) (tile_size step row col : Z) : Image :=
  let window :=
    crop_region image
      (tile_box (im_width image) (im_height image) tile_size step row col)
  in
  if negb (size_eqb (size window) (tile_size, tile_size))
  then paste (white_canvas tile_size) window (0, 0)
  else window.

(** Two images hold the same picture: same size, same pixels inside it. *)
Definition same_image (a b : Image) : Prop :=
  size a = size b /\
  forall x y, inside a x y = true -> getpixel a x y = getpixel b x y.

Definition same_emitted (s t : emitted) : Prop :=
  same_image (fst (fst s)) (fst (fst t)) /\ cell_of s = cell_of t.

(** Two runs end alike: the same exception, or tile sequences that agree
    element by element. *)
Definition same_outcome (r1 r2 : result (list emitted)) : Prop :=
  match r1, r2 with
  | Ok l1, Ok l2 => Forall2 same_emitted l1 l2
  | Raise e1, Raise e2 => e1 = e2
  | _, _ => False
  end.

(** [r] is a nearest integer to [n / 10]. *)
Definition nearest_tenth (n r : Z) : Prop := Z.abs (10 * r - n) <= 5.

(** The border thickness as the specification words it:
    [max(round(0.1 * min(width, height)), 10)]. *)
Definition spec_border_thickness (w h t : Z) : Prop :=
  exists r, nearest_tenth (Z.min w h) r /\ t = Z.max r 10.

(** The border thickness with the product truncated, as [int] does. *)
Definition floor_border_thickness (w h : Z) : Z :=
  Z.max (Z.min w h / 10) 10.

(** [border_thickness] agrees with [floor_border_thickness] on a square of
    side [k]. *)
Definition thickness_agrees_at (k : Z) : bool :=
  match border_thickness k k with
  | Ok t => t =? floor_border_thickness k k
  | Raise _ => false
  end.

(** [p] holds at [k, k+1, ..., k+fuel-1]. *)
Fixpoint all_from (p : Z -> bool) (k : Z) (fuel : nat) : bool :=
  match fuel with
  | O => true
  | S fuel' => p k && all_from p (k + 1) fuel'
  end.

(** The elements of a list whose index satisfies [p], the first index
    being [i]. *)
Fixpoint keep_from {A} (i : Z) (p : Z -> bool) (l : list A) : list A :=
  match l with
  | [] => []
  | a :: l' =>
      if p i then a :: keep_from (i + 1) p l' else keep_from (i + 1) p l'
  end.

(** The part of an array in the rows whose index satisfies [pr] and the
    columns whose index satisfies [pc]. *)
Definition region {A} (pr pc : Z -> bool) (a : list (list A))
  : list (list A) :=
  map (keep_from 0 pc) (keep_from 0 pr a).

Definition every (_ : Z) : bool := true.

(** The four border strips of thickness [bt] of an [h x w] array, and the
    interior that is left when the band is removed on all four sides. *)
Definition top_band {A} (bt : Z) (a : list (list A)) :=
  region (fun i => i <? bt) every a.
Definition bottom_band {A} (h bt : Z) (a : list (list A)) :=
  region (fun i => h - bt <=? i) every a.
Definition left_band {A} (bt : Z) (a : list (list A)) :=
  region every (fun j => j <? bt) a.
Definition right_band {A} (w bt : Z) (a : list (list A)) :=
  region every (fun j => w - bt <=? j) a.
Definition interior {A} (h w bt : Z) (a : list (list A)) :=
  region (fun i => (bt <=? i) && (i <? h - bt))
         (fun j => (bt <=? j) && (j <? w - bt)) a.

(** An array of [h] rows of [w] columns. *)
Definition rectangular {A} (h w : Z) (a : list (list A)) : Prop :=
  len a = h /\ Forall (fun row => len row = w) a.

End Spec.

Import Spec.

(** ** The page loop of [upload_file]

    The loop is modelled with its state passed along: the list
    [converted_files], the two counters, and the files written so far.
    Failures of the file system are outside the model. *)

Module Upload.

Import String.StringSyntax Ascii.AsciiSyntax.
Local Open Scope string_scope.

(** [str(n)] of a Python int: its decimal digits, with a leading minus
    sign when it is negative. *)
Definition str (n : Z) : String.string :=
  DecimalString.NilZero.string_of_int (Z.to_int n).

(** The configuration constants of lines 20-23. *)
Definition DPI : Z := 350.
Definition TILE_SIZE : Z := 1024.
Definition OVERLAP : Z := 128.
Definition BLANK_THRESHOLD : float := lit_0_98.

(** Line 309: [f"page_{i+1}_tile_r{row}_c{col}.jpg"], as a function of the
    page number [i+1], the row and the column. *)
Definition output_filename (page row col : Z) : String.string :=
  String.append "page_"
    (String.append (str page)
       (String.append "_tile_r"
          (String.append (str row)
             (String.append "_c" (String.append (str col) ".jpg"))))).

(** [os.path.join(dir, name)] for a non-empty [dir] without a trailing
    slash and a relative [name]. *)
Definition path_join (dir name : String.string) : String.string :=
  String.append dir (String.append "/" name).

(** The mode of three 8-bit channels. *)
Definition RGB : String.string := "RGB".

(** A PIL image together with its mode. *)
Record Picture : Type := mkPicture {
  mode : String.string;
  picture : Image
}.

(** An entry of [converted_files], lines 313-320. *)
Record converted_file : Type := mkConverted {
  filename : String.string;
  path : String.string;
  size_bytes : Z;
  page : Z;
  tile_row : Z;
  tile_col : Z
}.

(** The variables that the loop updates, and the files it has written, in
    the order of writing. *)
Record loop_state : Type := mkState {
  converted_files : list converted_file;
  total_tiles : Z;
  blank_tiles_filtered : Z;
  disk : list (String.string * Image)
}.

(** Lines 291-293; the output directory is fresh. *)
Definition initial_state : loop_state := mkState [] 0 0 [].

(** [enumerate(items)] *)
Definition enumerate {A} (items : list A) : list (Z * A) :=
  combine (range (len items)) items.

Section WithLibraries.

(** The statistics and the luminance that the classifier takes as given,
    [image.convert(mode)], and the number of bytes of the JPEG file that
    [tile_img.save] writes, which [os.path.getsize] reads back. *)
Variable np_std : list Z -> float.
Variable np_mean : list Z -> float.
Variable np_mean_floats : list float -> float.
Variable convert_L : pixel -> Z.
Variable convert : Picture -> String.string -> Picture.
Variable jpeg_size : Image -> Z.

(** The directory of the conversion, [os.path.join(OUTPUT_FOLDER, id)]. *)
Variable output_dir : String.string.

(** Lines 224-230. *)
Definition optimize_for_roboflow (image : Picture) : Picture :=
  if negb (String.eqb (mode image) RGB) then convert image RGB
  else image.

(** The body of the inner loop, lines 303-321, for the page of index [i]. *)
Definition save_tile (i : Z) (t : emitted) (st : loop_state)
  : result loop_state :=
  let '(tile_img, row, col) := t in
  blank <- is_blank_tile np_std np_mean np_mean_floats convert_L
             tile_img BLANK_THRESHOLD ;;
  if blank then
    Ok (mkState (converted_files st) (total_tiles st)
          (blank_tiles_filtered st + 1) (disk st))
  else
    let output_filename := output_filename (i + 1) row col in
    let output_path := path_join output_dir output_filename in
    let disk' := (disk st ++ [(output_path, tile_img)])%list in
    Ok (mkState
          (converted_files st
           ++ [mkConverted output_filename output_path (jpeg_size tile_img)
                 (i + 1) row col])%list
          (total_tiles st + 1)
          (blank_tiles_filtered st)
          disk').

(** The body of the outer loop, lines 295-321. *)
Definition process_page (item : Z * Picture) (st : loop_state)
  : result loop_state :=
  let '(i, image) := item in
  let optimized_image := optimize_for_roboflow image in
  tiles <- tile_image (picture optimized_image) TILE_SIZE OVERLAP ;;
  for_each tiles (save_tile i) st.

(** Lines 291-321. *)
Definition process_pages (images : list Picture) : result loop_state :=
  for_each (enumerate images) process_page initial_state.

End WithLibraries.

End Upload.

Import Upload.

(** ** Vocabulary for the page loop *)

Module UploadSpec.

Import Ascii.AsciiSyntax.
Local Open Scope char_scope.

(** The characters that separate the numbers of a file name. *)
Definition underscore : Ascii.ascii := "_".
Definition dot : Ascii.ascii := ".".

(** The character [c] occurs in [s]. *)
Fixpoint occurs (c : Ascii.ascii) (s : String.string) : bool :=
  match s with
  | String.EmptyString => false
  | String.String a s' => Ascii.eqb a c || occurs c s'
  end.

Section WithLibraries.

Variable np_std : list Z -> float.
Variable np_mean : list Z -> float.
Variable np_mean_floats : list float -> float.
Variable convert_L : pixel -> Z.
Variable convert : Picture -> String.string -> Picture.
Variable jpeg_size : Image -> Z.
Variable output_dir : String.string.

(** The classifier answers "not blank" on the tile of [t]. *)
Definition kept (t : emitted) : bool :=
  match is_blank_tile np_std np_mean np_mean_floats convert_L
          (fst (fst t)) BLANK_THRESHOLD with
  | Ok false => true
  | _ => false
  end.

(** The classifier answers "blank" on the tile of [t]. *)
Definition filtered (t : emitted) : bool :=
  match is_blank_tile np_std np_mean np_mean_floats convert_L
          (fst (fst t)) BLANK_THRESHOLD with
  | Ok true => true
  | _ => false
  end.

(** The entry of [converted_files] for the tile [t] of the page of index
    [i]. *)
Definition record_of (i : Z) (t : emitted) : converted_file :=
  let name := output_filename (i + 1) (snd (fst t)) (snd t) in
  mkConverted name (path_join output_dir name) (jpeg_size (fst (fst t)))
    (i + 1) (snd (fst t)) (snd t).

(** The tiles of a page, after [optimize_for_roboflow]. *)
Definition page_tiles (image : Picture) : list emitted :=
  match tile_image (picture (optimize_for_roboflow convert image))
          TILE_SIZE OVERLAP with
  | Ok tiles => tiles
  | Raise _ => []
  end.

(** The entries for the tiles of one page that are kept. *)
Definition page_records (item : Z * Picture) : list converted_file :=
  map (record_of (fst item)) (filter kept (page_tiles (snd item))).

(** The number of cells of the grid of a page. *)
Definition page_cells (image : Picture) : Z :=
  let raster := picture (optimize_for_roboflow convert image) in
  code_grid_dim (im_height raster) OVERLAP (TILE_SIZE - OVERLAP)
  * code_grid_dim (im_width raster) OVERLAP (TILE_SIZE - OVERLAP).

(** The number of cells of the grids of all pages. *)
Definition total_cells (images : list Picture) : Z :=
  fold_right (fun image acc => page_cells image + acc) 0 images.

(** A page whose raster, after [optimize_for_roboflow], has a size. *)
Definition well_formed (image : Picture) : Prop :=
  let raster := picture (optimize_for_roboflow convert image) in
  0 <= im_width raster /\ 0 <= im_height raster.

End WithLibraries.


End UploadSpec.

Import UploadSpec.

(** ** Vocabulary for arrays *)

Module Shape.

(** Two arrays of one shape: as many rows, and rows of equal lengths. *)
Inductive same_shape {A B} : list (list A) -> list (list B) -> Prop :=
| same_shape_nil : same_shape [] []
| same_shape_cons row1 row2 a b :
    length row1 = length row2 -> same_shape a b ->
    same_shape (row1 :: a) (row2 :: b).

End Shape.

Import Shape.

(** * Properties of the tiler *)

(** ** Ranges and loops *)

Lemma in_range (n x : Z) : In x (range n) <-> 0 <= x < n.
Proof.
  unfold range. rewrite in_map_iff. split.
  - intros (k & <- & Hk). apply in_seq in Hk. lia.
  - intros Hx. exists (Z.to_nat x). split; [lia|]. apply in_seq. lia.
Qed.

Lemma length_range (n : Z) : Z.of_nat (length (range n)) = Z.max 0 n.
Proof. unfold range. rewrite length_map, length_seq. lia. Qed.

Lemma range_nonempty (n : Z) : 0 < n -> range n <> [].
Proof.
  intros Hn Hnil. apply (f_equal (@length Z)) in Hnil.
  pose proof (length_range n). rewrite Hnil in H. simpl in H. lia.
Qed.

(** A loop whose body only appends appends the concatenation. *)
Lemma for_each_appends {A B : Type} (g : A -> list B)
      (body : A -> list B -> result (list B)) (xs : list A) :
  (forall x, In x xs -> forall s, body x s = Ok (s ++ g x)) ->
  forall s, for_each xs body s = Ok (s ++ flat_map g xs).
Proof.
  induction xs as [|x xs IH]; intros Hbody s; simpl.
  - now rewrite app_nil_r.
  - rewrite Hbody by now left.
    rewrite IH by (intros; apply Hbody; now right).
    now rewrite app_assoc.
Qed.

Lemma flat_map_singleton {A B : Type} (f : A -> B) (xs : list A) :
  flat_map (fun x => [f x]) xs = map f xs.
Proof. induction xs; simpl; congruence. Qed.


(** ** The grid dimensions *)

Lemma ceil_div_spec (a b : Z) :
  0 < b -> b * (ceil_div a b - 1) < a <= b * ceil_div a b.
Proof. intros Hb. unfold ceil_div. Z.div_mod_to_equations. nia. Qed.

Lemma ceil_div_code (a b : Z) : 0 < b -> (a + b - 1) / b = ceil_div a b.
Proof. intros Hb. unfold ceil_div. Z.div_mod_to_equations. nia. Qed.

Lemma code_grid_dim_spec (extent overlap step : Z) :
  0 < step -> code_grid_dim extent overlap step = grid_dim extent overlap step.
Proof.
  intros Hs. unfold code_grid_dim, grid_dim.
  now rewrite <- (ceil_div_code (extent - overlap) step Hs).
Qed.

Lemma code_grid_dim_pos (extent overlap step : Z) :
  1 <= code_grid_dim extent overlap step.
Proof. unfold code_grid_dim. lia. Qed.

(** The last window reaches the far edge of the page. *)
Lemma code_grid_dim_reaches (extent overlap step : Z) :
  0 < step ->
  extent <= code_grid_dim extent overlap step * step + overlap.
Proof. intros Hs. unfold code_grid_dim. Z.div_mod_to_equations. nia. Qed.

(** ** The window of a grid cell *)

(** Case analysis on the two edge corrections of [tile_box]. *)
Ltac box_cases :=
  unfold tile_box;
  repeat match goal with
    | |- context [if ?c then _ else _] =>
        let E := fresh "E" in destruct c eqn:E
    end;
  repeat match goal with
    | E : (_ && _) = true |- _ => apply andb_true_iff in E; destruct E
    | E : (_ && _) = false |- _ => apply andb_false_iff in E
    end.

Lemma tile_box_bounds (w h ts step row col : Z) :
  0 <= w -> 0 <= h -> 0 < ts -> 0 <= step -> 0 <= row -> 0 <= col ->
  forall l t r b, tile_box w h ts step row col = (l, t, r, b) ->
  (0 <= l <= r /\ r <= w /\ r - l <= ts) /\
  (0 <= t <= b /\ b <= h /\ b - t <= ts).
Proof.
  intros Hw Hh Hts Hs Hr Hc l t r b.
  assert (0 <= col * step) by nia.
  assert (0 <= row * step) by nia.
  box_cases; intros [= <- <- <- <-]; lia.
Qed.

(** On a page at least one tile wide and high, every window is full. *)
Lemma tile_box_full (w h ts step row col : Z) :
  0 < ts -> ts <= w -> ts <= h -> 0 <= step -> 0 <= row -> 0 <= col ->
  forall l t r b, tile_box w h ts step row col = (l, t, r, b) ->
  r - l = ts /\ b - t = ts.
Proof.
  intros Hts Hw Hh Hs Hr Hc l t r b.
  assert (0 <= col * step) by nia.
  assert (0 <= row * step) by nia.
  box_cases; intros [= <- <- <- <-]; lia.
Qed.

(** ** One pass of the loop body *)

Lemma tile_cell_ok (image : Image) (ts step row col : Z)
      (tiles : list emitted) :
  0 <= im_width image -> 0 <= im_height image ->
  0 < ts -> 0 <= step -> 0 <= row -> 0 <= col ->
  tile_cell image ts step row col tiles
  = Ok (tiles ++ [(cell_tile image ts step row col, row, col)]).
Proof.
  intros Hw Hh Hts Hs Hr Hc.
  unfold tile_cell, cell_tile, size at 1.
  destruct (tile_box (im_width image) (im_height image) ts step row col)
    as [[[l t] r] b] eqn:Hbox.
  destruct (tile_box_bounds _ _ _ _ _ _ Hw Hh Hts Hs Hr Hc _ _ _ _ Hbox)
    as [Hx Hy].
  unfold crop.
  destruct (r <? l) eqn:E1; [lia|].
  destruct (b <? t) eqn:E2; [lia|].
  cbn [bind]. unfold pad_tile.
  destruct (negb (size_eqb (size (crop_region image (l, t, r, b))) (ts, ts)));
    [|reflexivity].
  unfold new. destruct ((ts <? 0) || (ts <? 0)) eqn:E3; [lia|].
  reflexivity.
Qed.

(** On a well-formed page and a valid configuration [tile_image] returns,
    and returns the tile of every cell of the grid in row-major order. *)
Lemma tile_image_ok (image : Image) (ts ov : Z) :
  0 <= im_width image -> 0 <= im_height image ->
  0 < ts -> 0 <= ov < ts ->
  tile_image image ts ov
  = Ok (map (fun rc => (cell_tile image ts (ts - ov) (fst rc) (snd rc),
                        fst rc, snd rc))
          (row_major (code_grid_dim (im_height image) ov (ts - ov))
                     (code_grid_dim (im_width image) ov (ts - ov)))).
Proof.
  intros Hw Hh Hts Hov.
  unfold tile_image, size, floordiv.
  destruct (ts - ov =? 0) eqn:E; [lia|]. cbn [bind].
  fold (code_grid_dim (im_width image) ov (ts - ov)).
  fold (code_grid_dim (im_height image) ov (ts - ov)).
  set (cols := code_grid_dim (im_width image) ov (ts - ov)).
  set (rows := code_grid_dim (im_height image) ov (ts - ov)).
  rewrite (for_each_appends
             (fun row => map (fun col =>
                (cell_tile image ts (ts - ov) row col, row, col))
                (range cols))).
  - simpl. unfold row_major. rewrite !flat_map_concat_map, concat_map.
    rewrite !map_map. do 2 f_equal.
    apply map_ext. intros row. now rewrite map_map.
  - intros row Hrow s. apply in_range in Hrow.
    rewrite (for_each_appends
               (fun col => [(cell_tile image ts (ts - ov) row col, row, col)])).
    + now rewrite flat_map_singleton.
    + intros col Hcol s'. apply in_range in Hcol.
      apply tile_cell_ok; lia.
Qed.

(** ** The grid in row-major order *)

Lemma in_row_major (rows cols r c : Z) :
  In (r, c) (row_major rows cols) <-> 0 <= r < rows /\ 0 <= c < cols.
Proof.
  unfold row_major. rewrite in_flat_map. split.
  - intros (row & Hrow & Hin). apply in_map_iff in Hin.
    destruct Hin as (col & [= <- <-] & Hcol).
    apply in_range in Hrow. apply in_range in Hcol. auto.
  - intros [Hr Hc]. exists r. split; [now apply in_range|].
    apply in_map_iff. exists c. split; [reflexivity | now apply in_range].
Qed.

Lemma length_flat_map_uniform {A B : Type} (f : A -> list B) (m : nat)
      (xs : list A) :
  (forall x, length (f x) = m) ->
  length (flat_map f xs) = (length xs * m)%nat.
Proof.
  intros Hf. induction xs as [|x xs IH]; simpl; [reflexivity|].
  rewrite length_app, Hf, IH. reflexivity.
Qed.

Lemma length_row_major (rows cols : Z) :
  0 <= rows -> 0 <= cols ->
  Z.of_nat (length (row_major rows cols)) = rows * cols.
Proof.
  intros Hr Hc. unfold row_major.
  rewrite (length_flat_map_uniform _ (length (range cols)))
    by (intros; apply length_map).
  rewrite Nat2Z.inj_mul, !length_range. lia.
Qed.

Lemma nth_error_range (n k : Z) :
  0 <= k < n -> nth_error (range n) (Z.to_nat k) = Some k.
Proof.
  intros Hk. unfold range. rewrite nth_error_map.
  rewrite (nth_error_nth' _ 0%nat) by (rewrite length_seq; lia).
  rewrite seq_nth by lia. simpl. f_equal. lia.
Qed.

Lemma nth_error_flat_map_uniform {A B : Type} (f : A -> list B) (m : nat)
      (xs : list A) :
  (forall x, length (f x) = m) ->
  forall i j x, (j < m)%nat -> nth_error xs i = Some x ->
                nth_error (flat_map f xs) (i * m + j) = nth_error (f x) j.
Proof.
  intros Hf. induction xs as [|a xs IH]; intros i j x Hj Hx.
  - destruct i; discriminate.
  - destruct i as [|i]; simpl in *.
    + inversion Hx; subst. apply nth_error_app1. rewrite Hf. exact Hj.
    + rewrite nth_error_app2 by (rewrite Hf; lia).
      rewrite Hf. replace (m + i * m + j - m)%nat with (i * m + j)%nat by lia.
      now apply IH.
Qed.

(** The [k]-th cell of the row-major order is [(k / cols, k mod cols)]. *)
Lemma nth_error_row_major (rows cols k : Z) :
  0 <= k < rows * cols -> 0 < cols ->
  nth_error (row_major rows cols) (Z.to_nat k) = Some (k / cols, k mod cols).
Proof.
  intros Hk Hc. unfold row_major.
  assert (Hq : 0 <= k / cols < rows).
  { split; [apply Z.div_pos; lia|]. apply Z.div_lt_upper_bound; lia. }
  pose proof (Z.mod_pos_bound k cols Hc) as Hm.
  replace (Z.to_nat k)
    with (Z.to_nat (k / cols) * length (range cols) + Z.to_nat (k mod cols))%nat.
  2:{ apply Nat2Z.inj. rewrite Nat2Z.inj_add, Nat2Z.inj_mul, length_range.
      rewrite !Z2Nat.id by lia. rewrite Z.max_r by lia.
      rewrite (Z.div_mod k cols) at 3 by lia. lia. }
  rewrite (nth_error_flat_map_uniform _ (length (range cols)) _
             (fun x => length_map _ _) _ _ (k / cols)).
  - rewrite nth_error_map, nth_error_range by lia. reflexivity.
  - apply Nat2Z.inj_lt. rewrite length_range. lia.
  - now apply nth_error_range.
Qed.

(** ** The pixels of a tile *)

Lemma cell_tile_size (image : Image) (ts step row col : Z) :
  size (cell_tile image ts step row col) = (ts, ts).
Proof.
  unfold cell_tile.
  destruct (tile_box (im_width image) (im_height image) ts step row col)
    as [[[l t] r] b].
  destruct (negb (size_eqb _ _)) eqn:E; [reflexivity|].
  apply negb_false_iff in E. unfold size_eqb in E.
  apply andb_true_iff in E. destruct E as [E1 E2].
  unfold size in *. cbn [fst snd crop_region im_width im_height] in *.
  f_equal; lia.
Qed.

(** Inside its window a tile shows the page. *)
Lemma cell_tile_window (image : Image) (ts step row col l t r b x y : Z) :
  0 <= im_width image -> 0 <= im_height image ->
  0 < ts -> 0 <= step -> 0 <= row -> 0 <= col ->
  tile_box (im_width image) (im_height image) ts step row col = (l, t, r, b) ->
  0 <= x < r - l -> 0 <= y < b - t ->
  getpixel (cell_tile image ts step row col) x y
  = getpixel image (l + x) (t + y).
Proof.
  intros Hw Hh Hts Hs Hr Hc Hbox Hx Hy.
  destruct (tile_box_bounds _ _ _ _ _ _ Hw Hh Hts Hs Hr Hc _ _ _ _ Hbox)
    as [Bx By].
  unfold cell_tile. rewrite Hbox.
  assert (Hin : inside image (x + l) (y + t) = true).
  { unfold inside. repeat (apply andb_true_iff; split); lia. }
  assert (Hwin : getpixel (crop_region image (l, t, r, b)) x y
                 = getpixel image (l + x) (t + y)).
  { cbn [crop_region getpixel]. rewrite Hin. f_equal; lia. }
  destruct (negb (size_eqb _ _)); [|exact Hwin].
  cbn [paste getpixel]. rewrite !Z.sub_0_r.
  replace (inside (crop_region image (l, t, r, b)) x y) with true.
  - exact Hwin.
  - symmetry. unfold inside. cbn [crop_region im_width im_height].
    repeat (apply andb_true_iff; split); lia.
Qed.

(** Outside its window a padded tile is white. *)
Lemma cell_tile_padding (image : Image) (ts step row col l t r b x y : Z) :
  tile_box (im_width image) (im_height image) ts step row col = (l, t, r, b) ->
  (r - l, b - t) <> (ts, ts) ->
  ~ (0 <= x < r - l /\ 0 <= y < b - t) ->
  getpixel (cell_tile image ts step row col) x y = white.
Proof.
  intros Hbox Hsmall Hout. unfold cell_tile. rewrite Hbox.
  destruct (negb (size_eqb _ _)) eqn:E.
  - cbn [paste getpixel white_canvas]. rewrite !Z.sub_0_r.
    replace (inside (crop_region image (l, t, r, b)) x y) with false;
      [reflexivity|].
    symmetry. unfold inside. cbn [crop_region im_width im_height].
    destruct (0 <=? x) eqn:E1; destruct (x <? r - l) eqn:E2;
      destruct (0 <=? y) eqn:E3; destruct (y <? b - t) eqn:E4;
      try reflexivity.
    exfalso. apply Hout. lia.
  - exfalso. apply Hsmall. apply negb_false_iff in E. unfold size_eqb in E.
    apply andb_true_iff in E. destruct E as [E1 E2].
    unfold size in *. cbn [fst snd crop_region im_width im_height] in *.
  f_equal; lia.
Qed.

(** ** Coverage along one axis *)

(** Every coordinate of the page falls in the unshifted span of some grid
    index: the one it starts in, or the last one. *)
Lemma covering_index (extent ov step x : Z) :
  0 < step -> 0 <= ov -> 0 <= x < extent ->
  exists k, 0 <= k < code_grid_dim extent ov step /\
            k * step <= x < k * step + (step + ov).
Proof.
  intros Hs Hov Hx.
  pose proof (code_grid_dim_reaches extent ov step Hs) as Hreach.
  pose proof (code_grid_dim_pos extent ov step) as Hpos.
  set (n := code_grid_dim extent ov step) in *.
  assert (Hq : (x / step) * step <= x < (x / step) * step + step).
  { Z.div_mod_to_equations. nia. }
  assert (Hq0 : 0 <= x / step) by (apply Z.div_pos; lia).
  destruct (Z_lt_le_dec (x / step) n) as [Hlt | Hge].
  - exists (x / step). lia.
  - exists (n - 1). split; [lia|]. nia.
Qed.

Lemma tile_box_covers (w h ts step row col x y : Z) :
  0 <= col * step -> col * step <= x < col * step + ts -> x < w ->
  0 <= row * step -> row * step <= y < row * step + ts -> y < h ->
  in_box (tile_box w h ts step row col) x y.
Proof.
  intros Hc0 Hc Hxw Hr0 Hr Hyh. unfold in_box.
  box_cases; lia.
Qed.

(** * The claims about the tiler *)

(** C1. On every page raster of positive width and height and every valid
    configuration ([tile_size > 0], [0 <= overlap < tile_size]),
    [tile_image] returns, and the windows it crops cover the page without a
    gap: every pixel of the page lies in the window of some emitted tile,
    and that tile shows the pixel at its place in the window. *)
Theorem tile_image_covers_page (image : Image) (tile_size overlap : Z) :
  0 < im_width image -> 0 < im_height image ->
  0 < tile_size -> 0 <= overlap < tile_size ->
  exists tiles,
    tile_image image tile_size overlap = Ok tiles /\
    forall x y,
      0 <= x < im_width image -> 0 <= y < im_height image ->
      exists tile row col l t r b,
        In (tile, row, col) tiles /\
        tile_box (im_width image) (im_height image) tile_size
          (tile_size - overlap) row col = (l, t, r, b) /\
        in_box (l, t, r, b) x y /\
        getpixel tile (x - l) (y - t) = getpixel image x y.
Proof.
  intros Hw Hh Hts Hov.
  eexists. split; [apply tile_image_ok; lia|].
  intros x y Hx Hy.
  set (step := tile_size - overlap).
  destruct (covering_index (im_width image) overlap step x)
    as (col & Hcol & Hcx); [lia..|].
  destruct (covering_index (im_height image) overlap step y)
    as (row & Hrow & Hry); [lia..|].
  replace (step + overlap) with tile_size in * by (unfold step; lia).
  destruct (tile_box (im_width image) (im_height image) tile_size step row col)
    as [[[l t] r] b] eqn:Hbox.
  assert (Hin : in_box (l, t, r, b) x y).
  { rewrite <- Hbox. apply tile_box_covers; nia. }
  exists (cell_tile image tile_size step row col), row, col, l, t, r, b.
  split; [|split; [exact Hbox|split; [exact Hin|]]].
  - apply in_map_iff. exists (row, col). split; [reflexivity|].
    apply in_row_major. fold step. lia.
  - destruct Hin as [Hix Hiy].
    rewrite (cell_tile_window image tile_size step row col l t r b)
      by (unfold step; lia || exact Hbox).
    f_equal; lia.
Qed.

Lemma tile_image_covers_page_witness :
  exists tiles,
    tile_image (solid 5 3 black) 4 1 = Ok tiles /\
    forall x y,
      0 <= x < 5 -> 0 <= y < 3 ->
      exists tile row col l t r b,
        In (tile, row, col) tiles /\
        tile_box 5 3 4 (4 - 1) row col = (l, t, r, b) /\
        in_box (l, t, r, b) x y /\
        getpixel tile (x - l) (y - t) = getpixel (solid 5 3 black) x y.
Proof.
  apply (tile_image_covers_page (solid 5 3 black) 4 1); simpl; lia.
Defined.

(** C4. On every page raster and valid configuration [tile_image] emits
    exactly [rows * cols] triples, where
    [cols = max(1, ceil((width - overlap) / step))] and
    [rows = max(1, ceil((height - overlap) / step))], one per grid cell and
    in row-major order: the [k]-th triple carries the cell
    [(k / cols, k mod cols)]. *)
Theorem tile_image_row_major (image : Image) (tile_size overlap : Z) :
  0 <= im_width image -> 0 <= im_height image ->
  0 < tile_size -> 0 <= overlap < tile_size ->
  let step := tile_size - overlap in
  let cols := grid_dim (im_width image) overlap step in
  let rows := grid_dim (im_height image) overlap step in
  exists tiles,
    tile_image image tile_size overlap = Ok tiles /\
    Z.of_nat (length tiles) = rows * cols /\
    map cell_of tiles = row_major rows cols /\
    forall k, 0 <= k < rows * cols ->
              nth_error (map cell_of tiles) (Z.to_nat k)
              = Some (k / cols, k mod cols).
Proof.
  intros Hw Hh Hts Hov step cols rows.
  assert (Hc : 1 <= cols) by (unfold cols, grid_dim; lia).
  assert (Hr : 1 <= rows) by (unfold rows, grid_dim; lia).
  eexists. split; [apply tile_image_ok; lia|].
  fold step. rewrite !code_grid_dim_spec by (unfold step; lia).
  fold cols rows.
  assert (Hcells :
    map cell_of
      (map (fun rc => (cell_tile image tile_size step (fst rc) (snd rc),
                       fst rc, snd rc)) (row_major rows cols))
    = row_major rows cols).
  { rewrite map_map. rewrite <- (map_id (row_major rows cols)) at 2.
    apply map_ext. intros [r c]. reflexivity. }
  split; [|split].
  - rewrite length_map. apply length_row_major; lia.
  - exact Hcells.
  - intros k Hk. rewrite Hcells. apply nth_error_row_major; lia.
Qed.

Lemma tile_image_row_major_witness :
  exists tiles,
    tile_image (solid 2000 1500 black) 1024 128 = Ok tiles /\
    Z.of_nat (length tiles) = 2 * 3 /\
    map cell_of tiles = [(0,0); (0,1); (0,2); (1,0); (1,1); (1,2)] /\
    forall k, 0 <= k < 2 * 3 ->
              nth_error (map cell_of tiles) (Z.to_nat k)
              = Some (k / 3, k mod 3).
Proof.
  apply (tile_image_row_major (solid 2000 1500 black) 1024 128); simpl; lia.
Defined.

(** Every emitted triple is the tile of a cell of the grid. *)
Lemma in_tile_image (image : Image) (ts ov : Z) :
  0 <= im_width image -> 0 <= im_height image ->
  0 < ts -> 0 <= ov < ts ->
  exists tiles,
    tile_image image ts ov = Ok tiles /\
    tiles <> [] /\
    forall tile row col,
      In (tile, row, col) tiles ->
      tile = cell_tile image ts (ts - ov) row col /\ 0 <= row /\ 0 <= col.
Proof.
  intros Hw Hh Hts Hov.
  eexists. split; [apply tile_image_ok; lia|]. split.
  - intros Hnil. apply map_eq_nil in Hnil.
    pose proof (code_grid_dim_pos (im_height image) ov (ts - ov)).
    pose proof (code_grid_dim_pos (im_width image) ov (ts - ov)).
    assert (Hin : In (0, 0) (row_major
                    (code_grid_dim (im_height image) ov (ts - ov))
                    (code_grid_dim (im_width image) ov (ts - ov))))
      by (apply in_row_major; lia).
    rewrite Hnil in Hin. exact Hin.
  - intros tile row col Hin. apply in_map_iff in Hin.
    destruct Hin as ([r c] & [= <- <- <-] & Hrc).
    apply in_row_major in Hrc. cbn [fst snd]. repeat split; lia.
Qed.

(** C3. Every tile that [tile_image] emits measures exactly
    [tile_size x tile_size], also at the page edges: whenever the cropped
    window is smaller, the tile is the white (255,255,255) canvas of that
    size with the window pasted at its top-left corner. *)
Theorem tile_image_tiles_sized (image : Image) (tile_size overlap : Z) :
  0 <= im_width image -> 0 <= im_height image ->
  0 < tile_size -> 0 <= overlap < tile_size ->
  exists tiles,
    tile_image image tile_size overlap = Ok tiles /\
    forall tile row col,
      In (tile, row, col) tiles ->
      size tile = (tile_size, tile_size) /\
      forall l t r b,
        tile_box (im_width image) (im_height image) tile_size
          (tile_size - overlap) row col = (l, t, r, b) ->
        (r - l, b - t) <> (tile_size, tile_size) ->
        forall x y,
          0 <= x < tile_size -> 0 <= y < tile_size ->
          getpixel tile x y
          = if (x <? r - l) && (y <? b - t)
            then getpixel image (l + x) (t + y)
            else white.
Proof.
  intros Hw Hh Hts Hov.
  destruct (in_tile_image image tile_size overlap Hw Hh Hts Hov)
    as (tiles & Hrun & _ & Hall).
  exists tiles. split; [exact Hrun|].
  intros tile row col Hin.
  destruct (Hall _ _ _ Hin) as (-> & Hr & Hc).
  split; [apply cell_tile_size|].
  intros l t r b Hbox Hsmall x y Hx Hy.
  destruct ((x <? r - l) && (y <? b - t)) eqn:E.
  - apply andb_true_iff in E. destruct E.
    apply (cell_tile_window image tile_size (tile_size - overlap) row col
             l t r b); lia || exact Hbox.
  - apply andb_false_iff in E.
    apply (cell_tile_padding image tile_size (tile_size - overlap) row col
             l t r b); [exact Hbox | exact Hsmall | lia].
Qed.

Lemma tile_image_tiles_sized_witness :
  exists tiles,
    tile_image (solid 5 3 black) 4 1 = Ok tiles /\
    forall tile row col,
      In (tile, row, col) tiles ->
      size tile = (4, 4) /\
      forall l t r b,
        tile_box 5 3 4 (4 - 1) row col = (l, t, r, b) ->
        (r - l, b - t) <> (4, 4) ->
        forall x y,
          0 <= x < 4 -> 0 <= y < 4 ->
          getpixel tile x y
          = if (x <? r - l) && (y <? b - t)
            then getpixel (solid 5 3 black) (l + x) (t + y)
            else white.
Proof.
  apply (tile_image_tiles_sized (solid 5 3 black) 4 1); simpl; lia.
Defined.

(** C9. On a page raster at least [tile_size] wide and high and a valid
    configuration no emitted tile is padded: after clamping and the edge
    shift every window measures exactly [tile_size x tile_size], and the
    emitted tile is the crop itself.  So the padding branch is only taken
    when a page dimension is smaller than [tile_size]. *)
Theorem tile_image_no_padding (image : Image) (tile_size overlap : Z) :
  0 < tile_size -> 0 <= overlap < tile_size ->
  tile_size <= im_width image -> tile_size <= im_height image ->
  exists tiles,
    tile_image image tile_size overlap = Ok tiles /\
    tiles <> [] /\
    forall tile row col,
      In (tile, row, col) tiles ->
      exists l t r b,
        tile_box (im_width image) (im_height image) tile_size
          (tile_size - overlap) row col = (l, t, r, b) /\
        r - l = tile_size /\ b - t = tile_size /\
        crop image (l, t, r, b) = Ok tile /\
        pad_tile tile tile_size = Ok tile.
Proof.
  intros Hts Hov Hw Hh.
  destruct (in_tile_image image tile_size overlap) as (tiles & Hrun & Hne & Hall);
    [lia..|].
  exists tiles. split; [exact Hrun|]. split; [exact Hne|].
  intros tile row col Hin.
  destruct (Hall _ _ _ Hin) as (-> & Hr & Hc).
  destruct (tile_box (im_width image) (im_height image) tile_size
              (tile_size - overlap) row col) as [[[l t] r] b] eqn:Hbox.
  assert (Hs : 0 <= tile_size - overlap) by lia.
  destruct (tile_box_full _ _ _ _ _ _ Hts Hw Hh Hs Hr Hc _ _ _ _ Hbox)
    as [Hx Hy].
  exists l, t, r, b. split; [reflexivity|]. split; [exact Hx|].
  split; [exact Hy|].
  assert (Hfull : size_eqb (size (crop_region image (l, t, r, b)))
                    (tile_size, tile_size) = true).
  { unfold size_eqb, size. cbn [crop_region im_width im_height fst snd].
    apply andb_true_iff. split; lia. }
  assert (Htile : cell_tile image tile_size (tile_size - overlap) row col
                  = crop_region image (l, t, r, b)).
  { unfold cell_tile. rewrite Hbox, Hfull. reflexivity. }
  rewrite Htile. split.
  - unfold crop. destruct (r <? l) eqn:E1; [lia|].
    destruct (b <? t) eqn:E2; [lia|]. reflexivity.
  - unfold pad_tile. rewrite Hfull. reflexivity.
Qed.

Lemma tile_image_no_padding_witness :
  exists tiles,
    tile_image (solid 7 5 black) 4 1 = Ok tiles /\
    tiles <> [] /\
    forall tile row col,
      In (tile, row, col) tiles ->
      exists l t r b,
        tile_box 7 5 4 (4 - 1) row col = (l, t, r, b) /\
        r - l = 4 /\ b - t = 4 /\
        crop (solid 7 5 black) (l, t, r, b) = Ok tile /\
        pad_tile tile 4 = Ok tile.
Proof.
  apply (tile_image_no_padding (solid 7 5 black) 4 1); simpl; lia.
Defined.

(** ** Configurations and pages outside the contract *)




(** C5, as the code has it.  A page raster of zero width or zero height is
    not refused: on a valid configuration [tile_image] returns a non-empty
    sequence of tiles, each the entirely white canvas of
    [tile_size x tile_size]. *)
Theorem tile_image_empty_page (image : Image) (tile_size overlap : Z) :
  0 <= im_width image -> 0 <= im_height image ->
  im_width image = 0 \/ im_height image = 0 ->
  0 < tile_size -> 0 <= overlap < tile_size ->
  exists tiles,
    tile_image image tile_size overlap = Ok tiles /\
    tiles <> [] /\
    forall tile row col,
      In (tile, row, col) tiles ->
      size tile = (tile_size, tile_size) /\
      forall x y, getpixel tile x y = white.
Proof.
  intros Hw Hh Hzero Hts Hov.
  destruct (in_tile_image image tile_size overlap Hw Hh Hts Hov)
    as (tiles & Hrun & Hne & Hall).
  exists tiles. split; [exact Hrun|]. split; [exact Hne|].
  intros tile row col Hin.
  destruct (Hall _ _ _ Hin) as (-> & Hr & Hc).
  split; [apply cell_tile_size|].
  intros x y.
  destruct (tile_box (im_width image) (im_height image) tile_size
              (tile_size - overlap) row col) as [[[l t] r] b] eqn:Hbox.
  assert (Hs : 0 <= tile_size - overlap) by lia.
  destruct (tile_box_bounds _ _ _ _ _ _ Hw Hh Hts Hs Hr Hc _ _ _ _ Hbox)
    as [Bx By].
  apply (cell_tile_padding image tile_size (tile_size - overlap) row col
           l t r b); [exact Hbox | intros [= E1 E2]; lia | lia].
Qed.

Lemma tile_image_empty_page_witness :
  exists tiles,
    tile_image (solid 0 5 black) 4 1 = Ok tiles /\
    tiles <> [] /\
    forall tile row col,
      In (tile, row, col) tiles ->
      size tile = (4, 4) /\
      forall x y, getpixel tile x y = white.
Proof.
  apply (tile_image_empty_page (solid 0 5 black) 4 1); simpl; lia.
Defined.

(** C5 fails as stated: a page of width zero and height five is tiled
    without any error, into two tiles. *)
Lemma tile_image_accepts_empty_page :
  ~ (exists e, tile_image (solid 0 5 black) 4 1 = Raise e) /\
  exists t0 t1,
    tile_image (solid 0 5 black) 4 1 = Ok [(t0, 0, 0); (t1, 1, 0)].
Proof.
  split.
  - intros [e H]. vm_compute in H. discriminate.
  - do 2 eexists. vm_compute. reflexivity.
Qed.

(** ** The size of the tiles on any configuration *)

Lemma for_each_invariant {A S : Type} (P : S -> Prop)
      (body : A -> S -> result S) (xs : list A) :
  (forall x s s', P s -> body x s = Ok s' -> P s') ->
  forall s s', P s -> for_each xs body s = Ok s' -> P s'.
Proof.
  intros Hbody. induction xs as [|x xs IH]; intros s s' Hs Hrun.
  - simpl in Hrun. inversion Hrun; subst. exact Hs.
  - simpl in Hrun. destruct (body x s) as [s1|e] eqn:Hb; [|discriminate].
    apply (IH s1 s'); [|exact Hrun]. now apply (Hbody x s).
Qed.

Lemma tile_cell_sized (image : Image) (ts step row col : Z)
      (tiles tiles' : list emitted) :
  Forall (fun t : emitted => size (fst (fst t)) = (ts, ts)) tiles ->
  tile_cell image ts step row col tiles = Ok tiles' ->
  Forall (fun t : emitted => size (fst (fst t)) = (ts, ts)) tiles'.
Proof.
  intros Hall. unfold tile_cell, size at 1, crop.
  destruct (tile_box _ _ _ _ _ _) as [[[l t] r] b].
  destruct (r <? l); [discriminate|].
  destruct (b <? t); [discriminate|].
  cbn [bind]. unfold pad_tile.
  destruct (negb (size_eqb _ _)) eqn:E.
  - unfold new. destruct (_ || _); [discriminate|]. cbn [bind].
    intros [= <-]. apply Forall_app. split; [exact Hall|].
    constructor; [reflexivity | constructor].
  - cbn [bind]. intros [= <-]. apply Forall_app. split; [exact Hall|].
    constructor; [|constructor]. cbn [fst].
    apply negb_false_iff in E. unfold size_eqb in E.
    apply andb_true_iff in E. destruct E as [E1 E2].
    unfold size in *. cbn [fst snd crop_region im_width im_height] in *.
    f_equal; lia.
Qed.

(** Whatever the configuration, a run of [tile_image] that returns has
    only built tiles of [tile_size x tile_size]. *)
Lemma tile_image_sized_any_configuration (image : Image) (ts ov : Z)
      (tiles : list emitted) :
  tile_image image ts ov = Ok tiles ->
  Forall (fun t : emitted => size (fst (fst t)) = (ts, ts)) tiles.
Proof.
  unfold tile_image, size at 1.
  destruct (floordiv _ _) as [qc|e]; [|discriminate]. cbn [bind].
  destruct (floordiv _ _) as [qr|e]; [|discriminate]. cbn [bind].
  apply for_each_invariant; [|constructor].
  intros row s s' Hs. apply for_each_invariant; [|exact Hs].
  intros col u u' Hu. now apply tile_cell_sized.
Qed.

(** ** Determinism *)

Lemma same_image_inside (a b : Image) (x y : Z) :
  same_image a b -> inside a x y = inside b x y.
Proof.
  intros [Hsize _]. unfold size in Hsize. inversion Hsize as [[Hw Hh]].
  unfold inside. now rewrite Hw, Hh.
Qed.

Lemma same_image_crop_region (a b : Image) (box : Z * Z * Z * Z) :
  same_image a b -> same_image (crop_region a box) (crop_region b box).
Proof.
  intros Hab. destruct box as [[[x0 y0] x1] y1]. split; [reflexivity|].
  intros x y _. cbn [crop_region getpixel].
  rewrite <- (same_image_inside a b _ _ Hab).
  destruct (inside a (x + x0) (y + y0)) eqn:E; [|reflexivity].
  now apply Hab.
Qed.

Lemma same_image_paste (canvas a b : Image) (at_ : Z * Z) :
  same_image a b -> same_image (paste canvas a at_) (paste canvas b at_).
Proof.
  intros Hab. destruct at_ as [ox oy]. split; [reflexivity|].
  intros x y _. cbn [paste getpixel].
  rewrite <- (same_image_inside a b _ _ Hab).
  destruct (inside a (x - ox) (y - oy)) eqn:E; [|reflexivity].
  now apply Hab.
Qed.

(** The loop body sends like states to like outcomes. *)
Lemma tile_cell_same (a b : Image) (ts step row col : Z)
      (s1 s2 : list emitted) :
  same_image a b -> Forall2 same_emitted s1 s2 ->
  same_outcome (tile_cell a ts step row col s1)
               (tile_cell b ts step row col s2).
Proof.
  intros Hab Hs. pose proof Hab as [Hsize _].
  unfold tile_cell. rewrite <- Hsize. unfold size. cbv beta iota.
  set (box := tile_box (im_width a) (im_height a) ts step row col).
  pose proof (same_image_crop_region a b box Hab) as Hcrop.
  unfold crop. destruct box as [[[l t] r] bt].
  destruct (r <? l); [simpl; reflexivity|].
  destruct (bt <? t); [simpl; reflexivity|].
  cbn [bind]. unfold pad_tile.
  destruct Hcrop as [Hcs Hcp]. rewrite <- Hcs. unfold size.
  destruct (negb (size_eqb _ _)).
  - unfold new. destruct (_ || _); [simpl; reflexivity|]. cbn [bind same_outcome].
    apply Forall2_app; [exact Hs|]. constructor; [|constructor].
    split; [|reflexivity]. cbn [fst].
    apply same_image_paste. split; assumption.
  - cbn [bind same_outcome].
    apply Forall2_app; [exact Hs|]. constructor; [|constructor].
    split; [|reflexivity]. cbn [fst]. split; assumption.
Qed.

Lemma for_each_same {A : Type} (body1 body2 : A -> list emitted ->
                                                result (list emitted))
      (xs : list A) :
  (forall x s1 s2, Forall2 same_emitted s1 s2 ->
                   same_outcome (body1 x s1) (body2 x s2)) ->
  forall s1 s2, Forall2 same_emitted s1 s2 ->
                same_outcome (for_each xs body1 s1) (for_each xs body2 s2).
Proof.
  intros Hbody. induction xs as [|x xs IH]; intros s1 s2 Hs; simpl.
  - exact Hs.
  - specialize (Hbody x s1 s2 Hs).
    destruct (body1 x s1) as [t1|e1], (body2 x s2) as [t2|e2];
      simpl in Hbody; try contradiction.
    + now apply IH.
    + exact Hbody.
Qed.

(** C8. Tiling is deterministic: the outcome of [tile_image] is a function
    of the size and the pixels of the page and of the two parameters.  Two
    runs on page rasters that hold the same picture, with the same
    parameters, end alike: they raise the same exception, or they return
    sequences of the same length whose tiles agree pixel by pixel and carry
    the same rows and columns in the same order. *)
Theorem tile_image_deterministic (a b : Image) (tile_size overlap : Z) :
  same_image a b ->
  same_outcome (tile_image a tile_size overlap)
               (tile_image b tile_size overlap).
Proof.
  intros Hab. pose proof Hab as [Hsize _].
  unfold tile_image. rewrite <- Hsize. unfold size.
  destruct (floordiv (im_width a - overlap + (tile_size - overlap) - 1)
              (tile_size - overlap)) as [qc|e]; [|simpl; reflexivity].
  cbn [bind].
  destruct (floordiv (im_height a - overlap + (tile_size - overlap) - 1)
              (tile_size - overlap)) as [qr|e]; [|simpl; reflexivity].
  cbn [bind].
  apply for_each_same; [|constructor].
  intros row s1 s2 Hs.
  apply for_each_same; [|exact Hs].
  intros col t1 t2 Ht. now apply tile_cell_same.
Qed.

Lemma tile_image_deterministic_witness :
  same_outcome (tile_image (solid 5 3 white) 4 1)
               (tile_image (mkImage 5 3 (fun x y =>
                              if inside (solid 5 3 white) x y
                              then white else black)) 4 1).
Proof.
  apply (tile_image_deterministic (solid 5 3 white)).
  split; [reflexivity|].
  intros x y Hin. cbn [getpixel solid]. cbn [getpixel solid] in Hin.
  rewrite Hin. reflexivity.
Defined.

(** * Properties of the classifier *)

(** ** The border thickness *)

Lemma all_from_spec (p : Z -> bool) (fuel : nat) :
  forall k, all_from p k fuel = true ->
            forall i, k <= i < k + Z.of_nat fuel -> p i = true.
Proof.
  induction fuel as [|fuel IH]; intros k Hall i Hi; [lia|].
  cbn [all_from] in Hall. apply andb_true_iff in Hall.
  destruct Hall as [Hk Hrest].
  destruct (Z.eq_dec i k) as [-> | Hne]; [exact Hk|].
  apply (IH (k + 1) Hrest). lia.
Qed.

Lemma thickness_agrees_below_65536 :
  all_from thickness_agrees_at 0 (Z.to_nat 65536) = true.
Proof. vm_compute. reflexivity. Qed.

(** C6, as the code has it.  The product [0.1 * min(height, width)] is
    truncated by [int], not rounded: for every tile whose smaller side is
    below 65536 pixels the border thickness is
    [max(floor(min(width, height) / 10), 10)]. *)
Theorem border_thickness_floor (height width : Z) :
  0 <= Z.min height width < 65536 ->
  border_thickness height width = Ok (floor_border_thickness width height).
Proof.
  intros Hk.
  pose proof (all_from_spec _ _ _ thickness_agrees_below_65536
                (Z.min height width)) as Hagree.
  specialize (Hagree ltac:(lia)).
  unfold thickness_agrees_at, border_thickness, floor_border_thickness in *.
  rewrite Z.min_id in Hagree.
  rewrite (Z.min_comm width height).
  destruct (to_int _) as [n|e]; cbn [bind] in *; [|discriminate].
  apply Z.eqb_eq in Hagree. now rewrite Hagree.
Qed.

Lemma border_thickness_floor_witness :
  border_thickness 1024 1024 = Ok (floor_border_thickness 1024 1024).
Proof. apply (border_thickness_floor 1024 1024). lia. Defined.

(** C6 fails as stated: on a 106 x 106 tile the code computes a thickness
    of 10, while 106 / 10 rounds to 11. *)
Lemma border_thickness_not_rounded :
  border_thickness 106 106 = Ok 10 /\
  ~ spec_border_thickness 106 106 10.
Proof.
  split; [vm_compute; reflexivity|].
  intros (r & Hr & Ht). unfold nearest_tenth in Hr. lia.
Qed.

(** ** Slices and regions *)

Lemma keep_from_ext {A} (p q : Z -> bool) (l : list A) :
  forall k, (forall i, k <= i < k + len l -> p i = q i) ->
            keep_from k p l = keep_from k q l.
Proof.
  unfold len. induction l as [|a l IH]; intros k Hpq; [reflexivity|].
  cbn [keep_from]. cbn [length] in Hpq.
  rewrite (Hpq k) by lia. rewrite (IH (k + 1)) by (intros; apply Hpq; lia).
  reflexivity.
Qed.

Lemma keep_from_range {A} (lo hi : Z) (l : list A) :
  forall k,
    keep_from k (fun i => (lo <=? i) && (i <? hi)) l
    = firstn (Z.to_nat (hi - Z.max lo k)) (skipn (Z.to_nat (lo - k)) l).
Proof.
  induction l as [|a l IH]; intros k.
  - now rewrite skipn_nil, firstn_nil.
  - cbn [keep_from]. rewrite IH.
    destruct (lo <=? k) eqn:Elo; destruct (k <? hi) eqn:Ehi; cbn [andb].
    + replace (Z.to_nat (lo - k)) with 0%nat by lia.
      replace (Z.to_nat (lo - (k + 1))) with 0%nat by lia.
      replace (Z.to_nat (hi - Z.max lo k))
        with (S (Z.to_nat (hi - Z.max lo (k + 1)))) by lia.
      reflexivity.
    + replace (Z.to_nat (hi - Z.max lo k)) with 0%nat by lia.
      replace (Z.to_nat (hi - Z.max lo (k + 1))) with 0%nat by lia.
      reflexivity.
    + replace (Z.to_nat (lo - k)) with (S (Z.to_nat (lo - (k + 1)))) by lia.
      replace (Z.max lo (k + 1)) with (Z.max lo k) by lia.
      reflexivity.
    + replace (Z.to_nat (lo - k)) with (S (Z.to_nat (lo - (k + 1)))) by lia.
      replace (Z.max lo (k + 1)) with (Z.max lo k) by lia.
      reflexivity.
Qed.

Lemma slice_bound_range (n i : Z) : 0 <= n -> 0 <= slice_bound n i <= n.
Proof. intros Hn. unfold slice_bound. destruct (i <? 0) eqn:E; lia. Qed.

(** A slice keeps the elements whose index lies in its range. *)
Lemma slice_keep {A} (start stop : option Z) (l : list A) :
  slice start stop l = keep_from 0 (in_slice (len l) start stop) l.
Proof.
  unfold slice, in_slice.
  destruct (slice_range (len l) start stop) as [lo hi] eqn:E.
  assert (Hlo : 0 <= lo).
  { unfold slice_range in E. inversion E; subst.
    destruct start; [apply slice_bound_range; unfold len|]; lia. }
  rewrite keep_from_range.
  rewrite Z.max_l by lia. now rewrite Z.sub_0_r.
Qed.

Lemma keep_from_Forall {A} (P : A -> Prop) (p : Z -> bool) (l : list A) :
  Forall P l -> forall k, Forall P (keep_from k p l).
Proof.
  induction 1 as [|a l Ha Hl IH]; intros k; cbn [keep_from].
  - constructor.
  - destruct (p k); [constructor; [exact Ha|]|]; apply IH.
Qed.

(** On a rectangular array a two-dimensional slice is the region of the
    rows and columns that its ranges select. *)
Lemma slice2d_region {A} (r0 r1 c0 c1 : option Z) (pr pc : Z -> bool)
      (h w : Z) (a : list (list A)) :
  rectangular h w a ->
  (forall i, 0 <= i < h -> in_slice h r0 r1 i = pr i) ->
  (forall j, 0 <= j < w -> in_slice w c0 c1 j = pc j) ->
  slice2d r0 r1 c0 c1 a = region pr pc a.
Proof.
  intros [Hh Hrows] Hr Hc. unfold slice2d, region.
  rewrite slice_keep, Hh.
  rewrite (keep_from_ext _ pr) by (intros; apply Hr; lia).
  apply map_ext_in. intros row Hrow.
  assert (Hlen : len row = w).
  { pose proof (keep_from_Forall _ pr a Hrows 0) as HF.
    rewrite Forall_forall in HF. now apply HF. }
  rewrite slice_keep, Hlen.
  apply keep_from_ext. intros; apply Hc; lia.
Qed.

Lemma len_keep_interior {A} (n bt : Z) (l : list A) :
  len l = n -> 0 <= bt ->
  len (keep_from 0 (fun i => (bt <=? i) && (i <? n - bt)) l)
  = Z.max 0 (n - 2 * bt).
Proof.
  intros Hn Hbt. unfold len in *. rewrite keep_from_range.
  rewrite length_firstn, length_skipn. lia.
Qed.

Lemma size2_uniform {A} (m : Z) (a : list (list A)) :
  Forall (fun row => len row = m) a -> size2 a = len a * m.
Proof.
  unfold size2, len. induction 1 as [|row a Hrow Ha IH]; [reflexivity|].
  cbn [fold_right length]. rewrite IH. unfold len in Hrow. lia.
Qed.

(** The interior holds [(h - 2 bt) x (w - 2 bt)] samples, or none. *)
Lemma size2_interior {A} (h w bt : Z) (a : list (list A)) :
  rectangular h w a -> 0 <= bt ->
  size2 (interior h w bt a) = Z.max 0 (h - 2 * bt) * Z.max 0 (w - 2 * bt).
Proof.
  intros [Hh Hrows] Hbt. unfold interior, region.
  rewrite (size2_uniform (Z.max 0 (w - 2 * bt))).
  - unfold len at 1. rewrite length_map. fold (len (A := list A)).
    fold (len (keep_from 0 (fun i => (bt <=? i) && (i <? h - bt)) a)).
    now rewrite (len_keep_interior h bt a Hh Hbt).
  - apply Forall_map.
    pose proof (keep_from_Forall _ (fun i => (bt <=? i) && (i <? h - bt))
                  a Hrows 0) as HF.
    eapply Forall_impl; [|exact HF].
    intros row Hrow. now apply len_keep_interior.
Qed.

(** Comparisons of integers, decided for [lia]. *)
Ltac bool_lia :=
  cbv beta iota;
  repeat match goal with
    | |- context [if ?a <? ?b then _ else _] => destruct (Z.ltb_spec a b)
    end;
  repeat match goal with
    | |- context [?a <? ?b] => destruct (Z.ltb_spec a b)
    | |- context [?a <=? ?b] => destruct (Z.leb_spec a b)
    end;
  cbn [andb]; try reflexivity; try lia.

Lemma in_slice_all (n i : Z) :
  0 <= i < n -> in_slice n None None i = every i.
Proof. intros Hi. unfold in_slice, slice_range, every. bool_lia. Qed.

Lemma in_slice_head (n bt i : Z) :
  0 < bt -> 0 <= i < n -> in_slice n None (Some bt) i = (i <? bt).
Proof.
  intros Hbt Hi. unfold in_slice, slice_range, slice_bound. bool_lia.
Qed.

Lemma in_slice_tail (n bt i : Z) :
  0 < bt -> 0 <= i < n -> in_slice n (Some (- bt)) None i = (n - bt <=? i).
Proof.
  intros Hbt Hi. unfold in_slice, slice_range, slice_bound. bool_lia.
Qed.

Lemma in_slice_middle (n bt i : Z) :
  0 < bt -> 0 <= i < n ->
  in_slice n (Some bt) (Some (- bt)) i = ((bt <=? i) && (i <? n - bt)).
Proof.
  intros Hbt Hi. unfold in_slice, slice_range, slice_bound. bool_lia.
Qed.

(** ** The rectangular-border check *)

(** C7. On a gray-level array of [height] rows and [width] columns and a
    positive border thickness, [detect_rectangular_border] answers true if
    and only if the center (the interior left when the band of that
    thickness is removed on all four sides) is not empty, the mean of the
    standard deviations of the four border strips exceeds 15, the standard
    deviation of the center is below 8 and the mean of the center exceeds
    240.  The center is empty exactly when the thickness is at least half
    of a dimension, and the check then answers false. *)
Theorem detect_rectangular_border_iff
        (np_std np_mean : list Z -> float)
        (np_mean_floats : list float -> float)
        (gray_array : list (list Z)) (height width bt : Z) :
  rectangular height width gray_array -> 0 < bt ->
  let center := interior height width bt gray_array in
  let border_std :=
    np_mean_floats [np_std (concat (top_band bt gray_array));
                    np_std (concat (bottom_band height bt gray_array));
                    np_std (concat (left_band bt gray_array));
                    np_std (concat (right_band width bt gray_array))] in
  let center_std := np_std (concat center) in
  let center_mean := np_mean (concat center) in
  let detected :=
    detect_rectangular_border np_std np_mean np_mean_floats gray_array bt in
  (detected = true <->
   size2 center <> 0 /\
   ltb (of_int 15) border_std = true /\
   ltb center_std (of_int 8) = true /\
   ltb (of_int 240) center_mean = true) /\
  (size2 center = 0 <-> height <= 2 * bt \/ width <= 2 * bt) /\
  (size2 center = 0 -> detected = false).
Proof.
  intros Hrect Hbt center border_std center_std center_mean detected.
  assert (Hdet : detected =
    if size2 center =? 0 then false
    else if ltb (of_int 15) border_std && ltb center_std (of_int 8)
         then if ltb (of_int 240) center_mean then true else false
         else false).
  { unfold detected, detect_rectangular_border.
    rewrite (slice2d_region None (Some bt) None None
               (fun i => i <? bt) every height width gray_array Hrect)
      by (intros; now apply in_slice_head || now apply in_slice_all).
    rewrite (slice2d_region (Some (- bt)) None None None
               (fun i => height - bt <=? i) every
               height width gray_array Hrect)
      by (intros; now apply in_slice_tail || now apply in_slice_all).
    rewrite (slice2d_region None None None (Some bt)
               every (fun j => j <? bt) height width gray_array Hrect)
      by (intros; now apply in_slice_head || now apply in_slice_all).
    rewrite (slice2d_region None None (Some (- bt)) None
               every (fun j => width - bt <=? j)
               height width gray_array Hrect)
      by (intros; now apply in_slice_tail || now apply in_slice_all).
    rewrite (slice2d_region (Some bt) (Some (- bt)) (Some bt) (Some (- bt))
               (fun i => (bt <=? i) && (i <? height - bt))
               (fun j => (bt <=? j) && (j <? width - bt))
               height width gray_array Hrect)
      by (intros; now apply in_slice_middle).
    reflexivity. }
  assert (Hsize : size2 center
                  = Z.max 0 (height - 2 * bt) * Z.max 0 (width - 2 * bt)).
  { apply size2_interior; [exact Hrect | lia]. }
  split; [|split].
  - rewrite Hdet. destruct (Z.eqb_spec (size2 center) 0) as [E | E].
    + split; [discriminate | intros [H _]; contradiction].
    + destruct (ltb (of_int 15) border_std), (ltb center_std (of_int 8)),
        (ltb (of_int 240) center_mean); cbn [andb];
        split; try discriminate; try (intros (_ & ? & ? & ?); discriminate);
        auto.
  - rewrite Hsize. nia.
  - intros E. rewrite Hdet, E. reflexivity.
Qed.

Lemma detect_rectangular_border_iff_witness :
  let np_std := fun l : list Z => of_int (fold_right Z.max 0 l
                                          - fold_right Z.min 255 l) in
  let np_mean := fun l : list Z => of_int (fold_right Z.add 0 l / len l) in
  let np_mean_floats := fun l : list float => hd (of_int 0) l in
  let gray_array := [[0; 200; 0]; [200; 255; 200]; [0; 200; 0]] in
  let center := interior 3 3 1 gray_array in
  let border_std :=
    np_mean_floats [np_std (concat (top_band 1 gray_array));
                    np_std (concat (bottom_band 3 1 gray_array));
                    np_std (concat (left_band 1 gray_array));
                    np_std (concat (right_band 3 1 gray_array))] in
  let center_std := np_std (concat center) in
  let center_mean := np_mean (concat center) in
  let detected :=
    detect_rectangular_border np_std np_mean np_mean_floats gray_array 1 in
  (detected = true <->
   size2 center <> 0 /\
   ltb (of_int 15) border_std = true /\
   ltb center_std (of_int 8) = true /\
   ltb (of_int 240) center_mean = true) /\
  (size2 center = 0 <-> 3 <= 2 * 1 \/ 3 <= 2 * 1) /\
  (size2 center = 0 -> detected = false).
Proof.
  apply (detect_rectangular_border_iff _ _ _
           [[0; 200; 0]; [200; 255; 200]; [0; 200; 0]] 3 3 1).
  - split; [reflexivity | repeat constructor].
  - lia.
Defined.

(** ** The threshold of the blank classifier *)

(** [<=] followed by [<] on doubles gives [<]. *)
Lemma leb_ltb_trans (a b c : float) :
  leb a b = true -> ltb b c = true -> ltb a c = true.
Proof.
  unfold leb, ltb, SFleb, SFltb, SFcompare.
  destruct a as [[]|[]| |[] ma ea], b as [[]|[]| |[] mb eb],
      c as [[]|[]| |[] mc ec];
    try discriminate; try reflexivity;
    change (Pos.compare_cont Eq) with Pos.compare;
    destruct (Z.compare_spec ea eb), (Z.compare_spec eb ec),
      (Z.compare_spec ea ec);
    try discriminate; try reflexivity; try lia; subst;
    destruct (Pos.compare_spec ma mb), (Pos.compare_spec mb mc),
      (Pos.compare_spec ma mc);
    cbn [CompOpp]; try discriminate; try reflexivity; try lia.
Qed.

(** C10. The blank classifier is antitone in its threshold: if a tile is
    blank at the threshold [t2], it is blank at every threshold
    [t1 <= t2].  Only the near-white test reads the threshold. *)
Theorem is_blank_tile_antitone
        (np_std np_mean : list Z -> float)
        (np_mean_floats : list float -> float) (convert_L : pixel -> Z)
        (tile : Image) (t1 t2 : float) :
  leb t1 t2 = true ->
  is_blank_tile np_std np_mean np_mean_floats convert_L tile t2 = Ok true ->
  is_blank_tile np_std np_mean np_mean_floats convert_L tile t1 = Ok true.
Proof.
  intros Hle. unfold is_blank_tile.
  set (white_percentage := div _ _).
  destruct (ltb t2 white_percentage) eqn:E2.
  - intros _. now rewrite (leb_ltb_trans t1 t2 white_percentage Hle E2).
  - intros Hrest. destruct (ltb t1 white_percentage); [reflexivity|].
    exact Hrest.
Qed.

Lemma is_blank_tile_antitone_witness :
  is_blank_tile (fun _ => of_int 0) (fun _ => of_int 0) (fun _ => of_int 0)
    (fun p => fst (fst p)) (solid 2 2 white) lit_0_8 = Ok true.
Proof.
  apply (is_blank_tile_antitone _ _ _ _ (solid 2 2 white) lit_0_8 lit_0_98);
    vm_compute; reflexivity.
Defined.

(** * Further properties of the tiler *)

(** A second column exists only when the page extends beyond it by more
    than the overlap. *)
Lemma next_index_inside (extent ov step k : Z) :
  0 < step -> 0 <= k -> k + 1 < code_grid_dim extent ov step ->
  (k + 1) * step + ov < extent.
Proof.
  intros Hs Hk Hlt. unfold code_grid_dim in Hlt.
  assert (Hq : k + 2 <= (extent - ov + step - 1) / step) by lia.
  assert (Hm : step * ((extent - ov + step - 1) / step)
               <= extent - ov + step - 1)
    by (apply Z.mul_div_le; lia).
  nia.
Qed.

(** X1. Every window that [tile_image] crops lies inside the page and is at
    most [tile_size] wide and high, and the emitted tile shows the page at
    every position of its window: no tile ever holds the zero fill that
    [crop] uses outside the image. *)
Theorem tile_image_windows_inside_page (image : Image)
        (tile_size overlap : Z) :
  0 <= im_width image -> 0 <= im_height image ->
  0 < tile_size -> 0 <= overlap < tile_size ->
  exists tiles,
    tile_image image tile_size overlap = Ok tiles /\
    forall tile row col l t r b,
      In (tile, row, col) tiles ->
      tile_box (im_width image) (im_height image) tile_size
        (tile_size - overlap) row col = (l, t, r, b) ->
      (0 <= l <= r /\ r <= im_width image /\ r - l <= tile_size) /\
      (0 <= t <= b /\ b <= im_height image /\ b - t <= tile_size) /\
      forall x y, 0 <= x < r - l -> 0 <= y < b - t ->
                  getpixel tile x y = getpixel image (l + x) (t + y).
Proof.
  intros Hw Hh Hts Hov.
  destruct (in_tile_image image tile_size overlap Hw Hh Hts Hov)
    as (tiles & Hrun & _ & Hall).
  exists tiles. split; [exact Hrun|].
  intros tile row col l t r b Hin Hbox.
  destruct (Hall _ _ _ Hin) as (-> & Hr & Hc).
  assert (Hs : 0 <= tile_size - overlap) by lia.
  destruct (tile_box_bounds _ _ _ _ _ _ Hw Hh Hts Hs Hr Hc _ _ _ _ Hbox)
    as [Bx By].
  split; [exact Bx|]. split; [exact By|].
  intros x y Hx Hy.
  apply (cell_tile_window image tile_size (tile_size - overlap) row col
           l t r b); assumption.
Qed.

Lemma tile_image_windows_inside_page_witness :
  exists tiles,
    tile_image (solid 5 3 black) 4 1 = Ok tiles /\
    forall tile row col l t r b,
      In (tile, row, col) tiles ->
      tile_box 5 3 4 (4 - 1) row col = (l, t, r, b) ->
      (0 <= l <= r /\ r <= 5 /\ r - l <= 4) /\
      (0 <= t <= b /\ b <= 3 /\ b - t <= 4) /\
      forall x y, 0 <= x < r - l -> 0 <= y < b - t ->
                  getpixel tile x y
                  = getpixel (solid 5 3 black) (l + x) (t + y).
Proof.
  apply (tile_image_windows_inside_page (solid 5 3 black) 4 1); simpl; lia.
Defined.

(** X2. Neighbouring windows share at least [overlap] pixels.  For two
    cells next to each other in a row of the grid the right-hand window
    starts no further left than the left-hand one, ends no earlier, and
    begins at least [overlap] columns before the left-hand one ends; the
    same holds for two cells above each other. *)
Theorem tile_box_neighbours_overlap (width height tile_size overlap : Z)
        (row col : Z) :
  0 <= width -> 0 <= height -> 0 < tile_size -> 0 <= overlap < tile_size ->
  0 <= row -> 0 <= col ->
  let step := tile_size - overlap in
  forall l t r b, tile_box width height tile_size step row col = (l, t, r, b) ->
  (col + 1 < code_grid_dim width overlap step ->
   forall l' t' r' b',
     tile_box width height tile_size step row (col + 1) = (l', t', r', b') ->
     l <= l' /\ r <= r' /\ l' + overlap <= r /\ t' = t /\ b' = b) /\
  (row + 1 < code_grid_dim height overlap step ->
   forall l' t' r' b',
     tile_box width height tile_size step (row + 1) col = (l', t', r', b') ->
     t <= t' /\ b <= b' /\ t' + overlap <= b /\ l' = l /\ r' = r).
Proof.
  intros Hw Hh Hts Hov Hr Hc step l t r b Hbox.
  assert (Hs : 0 < step) by (unfold step; lia).
  assert (0 <= col * step) by nia.
  assert (0 <= row * step) by nia.
  split.
  - intros Hnext l' t' r' b' Hbox'.
    pose proof (next_index_inside width overlap step col Hs Hc Hnext).
    assert ((col + 1) * step = col * step + step) by lia.
    revert Hbox Hbox'. box_cases;
      intros [= <- <- <- <-] [= <- <- <- <-]; unfold step in *; lia.
  - intros Hnext l' t' r' b' Hbox'.
    pose proof (next_index_inside height overlap step row Hs Hr Hnext).
    assert ((row + 1) * step = row * step + step) by lia.
    revert Hbox Hbox'. box_cases;
      intros [= <- <- <- <-] [= <- <- <- <-]; unfold step in *; lia.
Qed.

Lemma tile_box_neighbours_overlap_witness :
  (1 + 1 < code_grid_dim 2000 128 (1024 - 128) ->
   forall l' t' r' b',
     tile_box 2000 1500 1024 (1024 - 128) 0 (1 + 1) = (l', t', r', b') ->
     896 <= l' /\ 1920 <= r' /\ l' + 128 <= 1920 /\ t' = 0 /\ b' = 1024) /\
  (0 + 1 < code_grid_dim 1500 128 (1024 - 128) ->
   forall l' t' r' b',
     tile_box 2000 1500 1024 (1024 - 128) (0 + 1) 1 = (l', t', r', b') ->
     0 <= t' /\ 1024 <= b' /\ t' + 128 <= 1024 /\ l' = 896 /\ r' = 1920).
Proof.
  apply (tile_box_neighbours_overlap 2000 1500 1024 128 0 1);
    lia || reflexivity.
Defined.

(** A page no wider than a tile has a single column. *)
Lemma code_grid_dim_single (extent ov ts : Z) :
  0 <= ov < ts -> extent <= ts -> code_grid_dim extent ov (ts - ov) = 1.
Proof.
  intros Hov Hext. unfold code_grid_dim.
  assert ((extent - ov + (ts - ov) - 1) / (ts - ov) <= 1).
  { apply Z.lt_succ_r. apply Z.div_lt_upper_bound; lia. }
  lia.
Qed.

(** X3. A page that fits in one tile yields exactly one tile, at row 0 and
    column 0: the page at the top-left corner of a
    [tile_size x tile_size] canvas, white wherever the page does not
    reach. *)
Theorem tile_image_small_page (image : Image) (tile_size overlap : Z) :
  0 <= im_width image <= tile_size -> 0 <= im_height image <= tile_size ->
  0 < tile_size -> 0 <= overlap < tile_size ->
  exists tile,
    tile_image image tile_size overlap = Ok [(tile, 0, 0)] /\
    size tile = (tile_size, tile_size) /\
    forall x y,
      0 <= x < tile_size -> 0 <= y < tile_size ->
      getpixel tile x y
      = if (x <? im_width image) && (y <? im_height image)
        then getpixel image x y
        else white.
Proof.
  intros Hw Hh Hts Hov.
  set (step := tile_size - overlap).
  exists (cell_tile image tile_size step 0 0). split; [|split].
  - rewrite tile_image_ok by lia. fold step.
    unfold step. rewrite !code_grid_dim_single by lia. reflexivity.
  - apply cell_tile_size.
  - intros x y Hx Hy.
    assert (Hbox : tile_box (im_width image) (im_height image) tile_size
                     step 0 0 = (0, 0, im_width image, im_height image)).
    { unfold tile_box. cbn [Z.mul]. rewrite !Z.add_0_l.
      rewrite !Z.min_r by lia. rewrite !andb_false_r. reflexivity. }
    destruct ((x <? im_width image) && (y <? im_height image)) eqn:E.
    + apply andb_true_iff in E. destruct E.
      rewrite (cell_tile_window image tile_size step 0 0
                 0 0 (im_width image) (im_height image))
        by (unfold step; lia || exact Hbox).
      reflexivity.
    + apply andb_false_iff in E.
      destruct (Z.eq_dec (im_width image) tile_size) as [Ew | Ew];
        [destruct (Z.eq_dec (im_height image) tile_size) as [Eh | Eh]|].
      * exfalso. destruct E as [E | E]; lia.
      * apply (cell_tile_padding image tile_size step 0 0
                 0 0 (im_width image) (im_height image));
          [exact Hbox | intros [= ? ?]; lia | lia].
      * apply (cell_tile_padding image tile_size step 0 0
                 0 0 (im_width image) (im_height image));
          [exact Hbox | intros [= ? ?]; lia | lia].
Qed.

Lemma tile_image_small_page_witness :
  exists tile,
    tile_image (solid 3 2 black) 4 1 = Ok [(tile, 0, 0)] /\
    size tile = (4, 4) /\
    forall x y,
      0 <= x < 4 -> 0 <= y < 4 ->
      getpixel tile x y
      = if (x <? 3) && (y <? 2) then getpixel (solid 3 2 black) x y
        else white.
Proof.
  apply (tile_image_small_page (solid 3 2 black) 4 1); simpl; lia.
Defined.

(** X4. A page of exactly [tile_size x tile_size] yields exactly one tile,
    at row 0 and column 0, and this tile is the unpadded crop of the whole
    page: it holds the same picture as the page. *)
Theorem tile_image_exact_page (image : Image) (tile_size overlap : Z) :
  im_width image = tile_size -> im_height image = tile_size ->
  0 < tile_size -> 0 <= overlap < tile_size ->
  tile_image image tile_size overlap
  = Ok [(crop_region image (0, 0, tile_size, tile_size), 0, 0)] /\
  same_image (crop_region image (0, 0, tile_size, tile_size)) image.
Proof.
  intros Hw Hh Hts Hov. split.
  - rewrite tile_image_ok by lia.
    rewrite !code_grid_dim_single by lia.
    change (row_major 1 1) with [(0, 0)]. cbn [map fst snd].
    unfold cell_tile.
    assert (Hbox : tile_box (im_width image) (im_height image) tile_size
                     (tile_size - overlap) 0 0
                   = (0, 0, tile_size, tile_size)).
    { unfold tile_box. cbn [Z.mul]. rewrite !Z.add_0_l.
      rewrite !Z.min_r by lia. rewrite !andb_false_r.
      now rewrite Hw, Hh. }
    rewrite Hbox.
    replace (size_eqb (size (crop_region image (0, 0, tile_size, tile_size)))
               (tile_size, tile_size)) with true; [reflexivity|].
    symmetry. unfold size_eqb, size.
    cbn [crop_region im_width im_height fst snd].
    rewrite Z.sub_0_r, Z.eqb_refl. reflexivity.
  - split.
    + unfold size. cbn [crop_region im_width im_height].
      rewrite Z.sub_0_r. now rewrite Hw, Hh.
    + intros x y Hin. cbn [crop_region getpixel].
      unfold inside in *. cbn [crop_region im_width im_height] in Hin.
      rewrite !Z.add_0_r. rewrite Hw, Hh.
      rewrite Z.sub_0_r in Hin. now rewrite Hin.
Qed.

Lemma tile_image_exact_page_witness :
  tile_image (solid 4 4 black) 4 1
  = Ok [(crop_region (solid 4 4 black) (0, 0, 4, 4), 0, 0)] /\
  same_image (crop_region (solid 4 4 black) (0, 0, 4, 4)) (solid 4 4 black).
Proof.
  apply (tile_image_exact_page (solid 4 4 black) 4 1); simpl; lia.
Defined.

(** Without overlap, on an extent that is a multiple of the tile size, the
    span of every grid index is a whole tile inside the extent. *)
Lemma abutting_index_inside (extent ts k : Z) :
  0 < ts -> 0 < extent -> extent mod ts = 0 ->
  0 <= k < code_grid_dim extent 0 ts -> k * ts + ts <= extent.
Proof.
  intros Hts Hext Hmod Hk. unfold code_grid_dim in Hk.
  apply Z.mod_divide in Hmod; [|lia]. destruct Hmod as [a ->].
  replace (a * ts - 0 + ts - 1) with (a * ts + (ts - 1)) in Hk by lia.
  rewrite Z.div_add_l in Hk by lia.
  rewrite (Z.div_small (ts - 1) ts) in Hk by lia.
  assert (Ha : 1 <= a) by nia.
  assert (Hka : k + 1 <= a) by lia.
  nia.
Qed.

Lemma tile_box_abutting (width height ts row col : Z) :
  0 < ts -> 0 <= row -> 0 <= col ->
  col * ts + ts <= width -> row * ts + ts <= height ->
  tile_box width height ts (ts - 0) row col
  = (col * ts, row * ts, col * ts + ts, row * ts + ts).
Proof.
  intros Hts Hr Hc Hw Hh. rewrite Z.sub_0_r. unfold tile_box.
  rewrite !Z.min_l by lia.
  replace (col * ts + ts - col * ts <? ts) with false by (symmetry; lia).
  replace (row * ts + ts - row * ts <? ts) with false by (symmetry; lia).
  reflexivity.
Qed.

(** X5. With an overlap of zero, on a page whose width and height are
    positive multiples of the tile size, the tiles abut: the window of cell
    [(row, col)] is the square
    [[col * tile_size, (col + 1) * tile_size) x
     [row * tile_size, (row + 1) * tile_size)], and every pixel of the page
    lies in the window of exactly one emitted tile. *)
Theorem tile_image_abutting (image : Image) (tile_size : Z) :
  0 < tile_size -> 0 < im_width image -> 0 < im_height image ->
  im_width image mod tile_size = 0 -> im_height image mod tile_size = 0 ->
  exists tiles,
    tile_image image tile_size 0 = Ok tiles /\
    (forall tile row col,
       In (tile, row, col) tiles ->
       tile_box (im_width image) (im_height image) tile_size
         (tile_size - 0) row col
       = (col * tile_size, row * tile_size,
          col * tile_size + tile_size, row * tile_size + tile_size)) /\
    forall x y,
      0 <= x < im_width image -> 0 <= y < im_height image ->
      exists tile row col,
        In (tile, row, col) tiles /\
        in_box (tile_box (im_width image) (im_height image) tile_size
                  (tile_size - 0) row col) x y /\
        forall tile' row' col',
          In (tile', row', col') tiles ->
          in_box (tile_box (im_width image) (im_height image) tile_size
                    (tile_size - 0) row' col') x y ->
          row' = row /\ col' = col.
Proof.
  intros Hts Hw Hh Hmw Hmh.
  assert (Hrun := tile_image_ok image tile_size 0
                    ltac:(lia) ltac:(lia) Hts ltac:(lia)).
  eexists. split; [exact Hrun|].
  assert (Hexact : forall row col,
            0 <= row < code_grid_dim (im_height image) 0 (tile_size - 0) ->
            0 <= col < code_grid_dim (im_width image) 0 (tile_size - 0) ->
            tile_box (im_width image) (im_height image) tile_size
              (tile_size - 0) row col
            = (col * tile_size, row * tile_size,
               col * tile_size + tile_size, row * tile_size + tile_size)).
  { intros row col Hr Hc. rewrite Z.sub_0_r in Hr, Hc.
    apply tile_box_abutting; try lia.
    - now apply abutting_index_inside.
    - now apply abutting_index_inside. }
  assert (Hcells : forall tile row col,
            In (tile, row, col)
              (map (fun rc => (cell_tile image tile_size (tile_size - 0)
                                 (fst rc) (snd rc), fst rc, snd rc))
                 (row_major
                    (code_grid_dim (im_height image) 0 (tile_size - 0))
                    (code_grid_dim (im_width image) 0 (tile_size - 0)))) ->
            0 <= row < code_grid_dim (im_height image) 0 (tile_size - 0) /\
            0 <= col < code_grid_dim (im_width image) 0 (tile_size - 0)).
  { intros tile row col Hin. apply in_map_iff in Hin.
    destruct Hin as ([r c] & [= <- <- <-] & Hrc).
    now apply in_row_major in Hrc. }
  split.
  - intros tile row col Hin. destruct (Hcells _ _ _ Hin). now apply Hexact.
  - intros x y Hx Hy.
    destruct (covering_index (im_width image) 0 (tile_size - 0) x)
      as (col & Hcol & Hcx); [lia..|].
    destruct (covering_index (im_height image) 0 (tile_size - 0) y)
      as (row & Hrow & Hry); [lia..|].
    exists (cell_tile image tile_size (tile_size - 0) row col), row, col.
    split; [|split].
    + apply in_map_iff. exists (row, col). split; [reflexivity|].
      now apply in_row_major.
    + rewrite Hexact by assumption. unfold in_box. lia.
    + intros tile' row' col' Hin' Hbox'.
      destruct (Hcells _ _ _ Hin') as [Hr' Hc'].
      rewrite Hexact in Hbox' by assumption. unfold in_box in Hbox'.
      split; nia.
Qed.

Lemma tile_image_abutting_witness :
  exists tiles,
    tile_image (solid 8 4 black) 4 0 = Ok tiles /\
    (forall tile row col,
       In (tile, row, col) tiles ->
       tile_box 8 4 4 (4 - 0) row col
       = (col * 4, row * 4, col * 4 + 4, row * 4 + 4)) /\
    forall x y,
      0 <= x < 8 -> 0 <= y < 4 ->
      exists tile row col,
        In (tile, row, col) tiles /\
        in_box (tile_box 8 4 4 (4 - 0) row col) x y /\
        forall tile' row' col',
          In (tile', row', col') tiles ->
          in_box (tile_box 8 4 4 (4 - 0) row' col') x y ->
          row' = row /\ col' = col.
Proof.
  apply (tile_image_abutting (solid 8 4 black) 4);
    simpl; lia || reflexivity.
Defined.

(** X6. Whatever the configuration, valid or not, a run of [tile_image]
    that returns has only built tiles of exactly
    [tile_size x tile_size]. *)
Theorem tile_image_sized_always (image : Image) (tile_size overlap : Z)
        (tiles : list emitted) :
  tile_image image tile_size overlap = Ok tiles ->
  forall tile row col,
    In (tile, row, col) tiles -> size tile = (tile_size, tile_size).
Proof.
  intros Hrun tile row col Hin.
  pose proof (tile_image_sized_any_configuration _ _ _ _ Hrun) as Hall.
  rewrite Forall_forall in Hall. exact (Hall _ Hin).
Qed.

Lemma tile_image_sized_always_witness :
  size (crop_region (solid 20 20 black) (0, 0, 10, 10)) = (10, 10).
Proof.
  eapply (tile_image_sized_always (solid 20 20 black) 10 11).
  - vm_compute. reflexivity.
  - left. reflexivity.
Defined.

(** * Further properties of the classifier *)

(** ** Gradients of [uint8] samples *)

Lemma diff_nth_error {A} (sub : A -> A -> A) (l : list A) :
  forall j a b,
    nth_error l j = Some a -> nth_error l (S j) = Some b ->
    nth_error (diff sub l) j = Some (sub b a).
Proof.
  induction l as [|x l IH]; intros j a b Ha Hb; [destruct j; discriminate|].
  destruct l as [|y l']; [destruct j; discriminate|].
  destruct j as [|j].
  - cbn in Ha, Hb. inversion Ha; inversion Hb; subst. reflexivity.
  - cbn [diff nth_error]. apply IH; assumption.
Qed.

(** X7. The gradients are computed on [uint8] samples and wrap around:
    between two horizontally adjacent gray samples [a] and [b] the code
    counts a significant edge when [b] exceeds [a] by more than 30, and
    also whenever [b] is below [a] by 1 to 225 levels.  So any step down,
    however small, counts as an edge, and a step down of 226 or more does
    not. *)
Theorem significant_edge_wraps (gray_array : list (list Z))
        (i j : nat) (row : list Z) (a b : Z) :
  nth_error gray_array i = Some row ->
  nth_error row j = Some a -> nth_error row (S j) = Some b ->
  0 <= a <= 255 -> 0 <= b <= 255 ->
  exists edges,
    nth_error (gt2d (abs_u8 (diff_axis1 gray_array)) 30) i = Some edges /\
    nth_error edges j
    = Some ((30 <? b - a) || ((b <? a) && (a - b <? 226))).
Proof.
  intros Hrow Ha Hb Ra Rb.
  unfold gt2d, abs_u8, diff_axis1, map2d.
  exists (map (fun v => 30 <? v) (diff sub_u8 row)). split.
  - rewrite !nth_error_map, Hrow. reflexivity.
  - rewrite nth_error_map, (diff_nth_error sub_u8 row j a b Ha Hb).
    cbn [option_map]. f_equal. unfold sub_u8.
    destruct (Z.ltb_spec b a) as [Hlt | Hge].
    + replace ((b - a) mod 256) with (b - a + 256)
        by (apply Z.mod_unique with (q := -1); lia).
      bool_lia.
    + rewrite Z.mod_small by lia. bool_lia.
Qed.

Lemma significant_edge_wraps_witness :
  exists edges,
    nth_error (gt2d (abs_u8 (diff_axis1 [[200; 190; 255]])) 30) 0
    = Some edges /\
    nth_error edges 0
    = Some ((30 <? 190 - 200) || ((190 <? 200) && (200 - 190 <? 226))).
Proof.
  apply (significant_edge_wraps [[200; 190; 255]] 0 0 [200; 190; 255]
           200 190); reflexivity || lia.
Defined.

(** ** Border edges and center edges *)

Lemma same_shape_refl {A} (a : list (list A)) : same_shape a a.
Proof. induction a; constructor; auto. Qed.

Lemma same_shape_trans {A B C} (a : list (list A)) (b : list (list B))
      (c : list (list C)) :
  same_shape a b -> same_shape b c -> same_shape a c.
Proof.
  intros Hab. revert c. induction Hab; intros c Hbc; inversion Hbc; subst.
  - constructor.
  - constructor; [congruence | auto].
Qed.

Lemma same_shape_map2d {A B} (f : A -> B) (a : list (list A)) :
  same_shape a (map2d f a).
Proof.
  induction a as [|row a IH]; cbn; constructor; [|exact IH].
  now rewrite length_map.
Qed.

Lemma length_imap_from {A B} (f : Z -> A -> B) (l : list A) :
  forall i, length (imap_from i f l) = length l.
Proof. induction l; intros i; cbn; [reflexivity | now rewrite IHl]. Qed.

Lemma same_shape_imap_from {A} (f : Z -> list A -> list A)
      (a : list (list A)) :
  (forall i row, length (f i row) = length row) ->
  forall i, same_shape a (imap_from i f a).
Proof.
  intros Hf. induction a as [|row a IH]; intros i; cbn; constructor.
  - now rewrite Hf.
  - apply IH.
Qed.

Lemma same_shape_set_rows (r0 r1 : option Z) (mask : list (list bool)) :
  same_shape mask (set_rows r0 r1 mask).
Proof.
  unfold set_rows, imap. apply same_shape_imap_from.
  intros i row. destruct (in_slice _ _ _ _); [apply length_map | reflexivity].
Qed.

Lemma same_shape_set_cols (c0 c1 : option Z) (mask : list (list bool)) :
  same_shape mask (set_cols c0 c1 mask).
Proof.
  unfold set_cols. induction mask as [|row mask IH]; cbn; constructor.
  - unfold imap. now rewrite length_imap_from.
  - exact IH.
Qed.

Lemma same_shape_border_mask (edges : list (list Z)) (bt : Z) :
  same_shape edges (border_mask edges bt).
Proof.
  unfold border_mask.
  eapply same_shape_trans; [apply (same_shape_map2d (fun _ => false))|].
  eapply same_shape_trans; [apply same_shape_set_rows|].
  eapply same_shape_trans; [apply same_shape_set_rows|].
  eapply same_shape_trans; [apply same_shape_set_cols|].
  apply same_shape_set_cols.
Qed.

Lemma count_row_split (row mask : list bool) :
  length row = length mask ->
  len (filter (fun b : bool => b) (zip_with andb row mask))
  + len (filter (fun b : bool => b) (zip_with andb row (map negb mask)))
  = len (filter (fun b : bool => b) row).
Proof.
  unfold len, zip_with. revert mask.
  induction row as [|x row IH]; intros [|m mask] Hlen; try discriminate;
    [reflexivity|].
  injection Hlen as Hlen. specialize (IH mask Hlen).
  cbn [map combine filter fst snd].
  destruct x, m; cbn [andb negb length]; lia.
Qed.

Lemma count_true_split (a mask : list (list bool)) :
  same_shape a mask ->
  count_true (and2d a mask) + count_true (and2d a (not2d mask))
  = count_true a.
Proof.
  induction 1 as [|row m a mask Hlen Hshape IH]; [reflexivity|].
  unfold and2d, not2d, map2d, zip_with in *.
  cbn [map combine count_true fold_right fst snd].
  unfold count_true in IH.
  pose proof (count_row_split row m Hlen) as Hrow.
  unfold zip_with in Hrow. lia.
Qed.

(** X8. [is_border_frame] counts every significant edge exactly once, as a
    border edge or as a center edge: for either gradient map the number of
    edges under the border mask plus the number under the center mask is
    the number of significant edges of the map, whatever the border
    thickness and the shape of the map. *)
Theorem border_and_center_edges_total (edges : list (list Z)) (bt : Z) :
  let border_mask := border_mask edges bt in
  let center_mask := not2d border_mask in
  count_true (and2d (gt2d edges 30) border_mask)
  + count_true (and2d (gt2d edges 30) center_mask)
  = count_true (gt2d edges 30).
Proof.
  intros bm cm. apply count_true_split.
  eapply same_shape_trans; [|apply same_shape_border_mask].
  unfold gt2d.
  assert (H : forall (a : list (list Z)),
             same_shape (map2d (fun v => 30 <? v) a) a).
  { induction a as [|row a IH]; cbn; constructor; [|exact IH].
    now rewrite length_map. }
  apply H.
Qed.

(** ** The classifier on tiles of any usable size *)

Lemma border_thickness_value (height width : Z) :
  0 <= Z.min height width < 65536 ->
  border_thickness height width = Ok (Z.max (Z.min height width / 10) 10).
Proof.
  intros Hk.
  pose proof (all_from_spec _ _ _ thickness_agrees_below_65536
                (Z.min height width)) as Hagree.
  specialize (Hagree ltac:(lia)).
  unfold thickness_agrees_at, border_thickness, floor_border_thickness in *.
  rewrite Z.min_id in Hagree.
  destruct (to_int _) as [n|e]; cbn [bind] in *; [|discriminate].
  apply Z.eqb_eq in Hagree. now rewrite Hagree.
Qed.

Lemma len_range (n : Z) : len (range n) = Z.max 0 n.
Proof. apply length_range. Qed.

Lemma len_map {A B} (f : A -> B) (l : list A) : len (map f l) = len l.
Proof. unfold len. now rewrite length_map. Qed.

(** The shape of the gray-level array of a tile. *)
Lemma shape_gray_array (convert_L : pixel -> Z) (tile : Image) :
  shape (map2d convert_L (array tile))
  = (Z.max 0 (im_height tile),
     if 0 <? im_height tile then Z.max 0 (im_width tile) else 0).
Proof.
  unfold shape, map2d, array. rewrite !len_map, len_range. f_equal.
  destruct (Z.ltb_spec 0 (im_height tile)) as [Hpos | Hneg].
  - unfold range at 2.
    destruct (Z.to_nat (im_height tile)) as [|n] eqn:E; [lia|].
    cbn [seq map hd]. now rewrite !len_map, len_range.
  - unfold range at 2.
    replace (Z.to_nat (im_height tile)) with 0%nat by lia. reflexivity.
Qed.

Lemma is_border_frame_returns (np_std np_mean : list Z -> float)
      (np_mean_floats : list float -> float)
      (gray_array edges_h edges_v : list (list Z)) :
  0 <= Z.min (fst (shape gray_array)) (snd (shape gray_array)) < 65536 ->
  exists b,
    is_border_frame np_std np_mean np_mean_floats gray_array edges_h edges_v
    = Ok b.
Proof.
  intros Hshape. unfold is_border_frame.
  destruct (shape gray_array) as [height width]. cbn [fst snd] in Hshape.
  rewrite (border_thickness_value height width Hshape). cbn [bind].
  destruct (0 <? _); [destruct (_ && _)|];
    try destruct (detect_rectangular_border _ _ _ _ _);
    eexists; reflexivity.
Qed.

(** X9. The classifier never fails on a tile whose smaller side is below
    65536 pixels, whatever its pixels and the threshold: the only
    operation of [is_blank_tile] that can raise, the conversion [int] of
    the border thickness, succeeds there.  Empty tiles are included. *)
Theorem is_blank_tile_returns
        (np_std np_mean : list Z -> float)
        (np_mean_floats : list float -> float) (convert_L : pixel -> Z)
        (tile : Image) (threshold : float) :
  Z.min (im_width tile) (im_height tile) < 65536 ->
  exists blank,
    is_blank_tile np_std np_mean np_mean_floats convert_L tile threshold
    = Ok blank.
Proof.
  intros Hsize. unfold is_blank_tile.
  destruct (ltb threshold _); [eexists; reflexivity|].
  destruct (ltb (np_std _) _); [eexists; reflexivity|].
  destruct (ltb _ lit_0_001); [eexists; reflexivity|].
  destruct (is_border_frame_returns np_std np_mean np_mean_floats
              (map2d convert_L (array tile))
              (abs_u8 (diff_axis0 (map2d convert_L (array tile))))
              (abs_u8 (diff_axis1 (map2d convert_L (array tile)))))
    as [b Hb].
  - rewrite shape_gray_array. cbn [fst snd].
    destruct (0 <? im_height tile) eqn:E; lia.
  - rewrite Hb. cbn [bind]. destruct b; eexists; reflexivity.
Qed.

Lemma is_blank_tile_returns_witness :
  exists blank,
    is_blank_tile (fun _ => of_int 9) (fun _ => of_int 0)
      (fun _ => of_int 0) (fun p => fst (fst p))
      (of_rows 2 [[(0, 0, 0); (200, 200, 200)];
                  [(200, 200, 200); (0, 0, 0)]]) lit_0_98
    = Ok blank.
Proof.
  apply (is_blank_tile_returns _ _ _ _
           (of_rows 2 [[(0, 0, 0); (200, 200, 200)];
                       [(200, 200, 200); (0, 0, 0)]])).
  simpl. lia.
Defined.

(** ** The rectangular check and the computed thickness *)

(** [detect_rectangular_border] in terms of the bands and the interior. *)
Lemma detect_rectangular_border_regions
      (np_std np_mean : list Z -> float)
      (np_mean_floats : list float -> float)
      (gray_array : list (list Z)) (height width bt : Z) :
  rectangular height width gray_array -> 0 < bt ->
  detect_rectangular_border np_std np_mean np_mean_floats gray_array bt
  = if size2 (interior height width bt gray_array) =? 0 then false
    else
      if ltb (of_int 15)
           (np_mean_floats
              [np_std (concat (top_band bt gray_array));
               np_std (concat (bottom_band height bt gray_array));
               np_std (concat (left_band bt gray_array));
               np_std (concat (right_band width bt gray_array))])
         && ltb (np_std (concat (interior height width bt gray_array)))
              (of_int 8)
      then
        if ltb (of_int 240)
             (np_mean (concat (interior height width bt gray_array)))
        then true else false
      else false.
Proof.
  intros Hrect Hbt. unfold detect_rectangular_border.
  rewrite (slice2d_region None (Some bt) None None
             (fun i => i <? bt) every height width gray_array Hrect)
    by (intros; now apply in_slice_head || now apply in_slice_all).
  rewrite (slice2d_region (Some (- bt)) None None None
             (fun i => height - bt <=? i) every
             height width gray_array Hrect)
    by (intros; now apply in_slice_tail || now apply in_slice_all).
  rewrite (slice2d_region None None None (Some bt)
             every (fun j => j <? bt) height width gray_array Hrect)
    by (intros; now apply in_slice_head || now apply in_slice_all).
  rewrite (slice2d_region None None (Some (- bt)) None
             every (fun j => width - bt <=? j)
             height width gray_array Hrect)
    by (intros; now apply in_slice_tail || now apply in_slice_all).
  rewrite (slice2d_region (Some bt) (Some (- bt)) (Some bt) (Some (- bt))
             (fun i => (bt <=? i) && (i <? height - bt))
             (fun j => (bt <=? j) && (j <? width - bt))
             height width gray_array Hrect)
    by (intros; now apply in_slice_middle).
  reflexivity.
Qed.

(** X10. With the thickness that [is_border_frame] computes, the
    rectangular check needs a tile of at least 21 x 21: on a gray-level
    array whose smaller side is at most 20 the center is empty and the
    check answers false whatever the pixels, and on one whose smaller side
    is from 21 to 65535 the center is never empty. *)
Theorem rectangular_check_needs_21
        (np_std np_mean : list Z -> float)
        (np_mean_floats : list float -> float)
        (gray_array : list (list Z)) (height width : Z) :
  rectangular height width gray_array ->
  0 <= Z.min height width < 65536 ->
  exists bt,
    border_thickness height width = Ok bt /\
    10 <= bt /\
    (Z.min height width <= 20 ->
     detect_rectangular_border np_std np_mean np_mean_floats gray_array bt
     = false) /\
    (21 <= Z.min height width ->
     0 < size2 (interior height width bt gray_array)).
Proof.
  intros Hrect Hmin.
  exists (Z.max (Z.min height width / 10) 10).
  split; [now apply border_thickness_value|].
  set (bt := Z.max (Z.min height width / 10) 10).
  assert (Hbt : 10 <= bt) by (unfold bt; lia).
  assert (Hdiv : 10 * (Z.min height width / 10) <= Z.min height width)
    by (apply Z.mul_div_le; lia).
  assert (Hsize := size2_interior height width bt gray_array Hrect
                     ltac:(lia)).
  split; [exact Hbt|]. split.
  - intros Hsmall.
    rewrite (detect_rectangular_border_regions _ _ _ _ height width)
      by (assumption || lia).
    replace (size2 (interior height width bt gray_array)) with 0;
      [reflexivity|].
    rewrite Hsize. nia.
  - intros Hbig. rewrite Hsize. unfold bt in *. nia.
Qed.

Lemma rectangular_check_needs_21_witness :
  exists bt,
    border_thickness 3 3 = Ok bt /\
    10 <= bt /\
    (Z.min 3 3 <= 20 ->
     detect_rectangular_border (fun _ => of_int 0) (fun _ => of_int 0)
       (fun _ => of_int 0) [[0; 200; 0]; [200; 255; 200]; [0; 200; 0]] bt
     = false) /\
    (21 <= Z.min 3 3 ->
     0 < size2 (interior 3 3 bt [[0; 200; 0]; [200; 255; 200]; [0; 200; 0]])).
Proof.
  apply (rectangular_check_needs_21 _ _ _
           [[0; 200; 0]; [200; 255; 200]; [0; 200; 0]] 3 3).
  - split; [reflexivity | repeat constructor].
  - lia.
Defined.

(** ** Doubles of small integers *)

Lemma digits2_pos_lower (p : positive) :
  2 ^ (Zpos (digits2_pos p) - 1) <= Zpos p.
Proof.
  induction p as [p IH | p IH |]; cbn [digits2_pos]; [| |cbn; lia].
  - rewrite Pos2Z.inj_succ.
    replace (Z.succ (Zpos (digits2_pos p)) - 1)
      with (Z.succ (Zpos (digits2_pos p) - 1)) by lia.
    rewrite Z.pow_succ_r by lia. lia.
  - rewrite Pos2Z.inj_succ.
    replace (Z.succ (Zpos (digits2_pos p)) - 1)
      with (Z.succ (Zpos (digits2_pos p) - 1)) by lia.
    rewrite Z.pow_succ_r by lia. lia.
Qed.

Lemma digits2_pos_bound (p : positive) :
  Zpos p < 2 ^ 53 -> Zpos (digits2_pos p) <= 53.
Proof.
  intros Hp. pose proof (digits2_pos_lower p) as Hlow.
  destruct (Z_le_gt_dec (Zpos (digits2_pos p)) 53) as [Hle | Hgt];
    [exact Hle|].
  exfalso.
  assert (2 ^ 53 <= 2 ^ (Zpos (digits2_pos p) - 1))
    by (apply Z.pow_le_mono_r; lia).
  lia.
Qed.

Lemma digits2_pos_iter_xO (p k : positive) :
  digits2_pos (Pos.iter xO p k) = (digits2_pos p + k)%positive.
Proof.
  induction k as [|k IH] using Pos.peano_ind.
  - cbn. lia.
  - rewrite Pos.iter_succ. cbn [digits2_pos]. rewrite IH. lia.
Qed.

(** A mantissa of 53 bits with an exponent in range needs no rounding. *)
Lemma binary_round_aux_canonical (m : positive) (e : Z) :
  digits2_pos m = 53%positive -> -1074 <= e <= 971 ->
  binary_round_aux prec emax false (Zpos m) e loc_Exact
  = S754_finite false m e.
Proof.
  intros Hd He.
  assert (Hshift : fexp prec emax (Zdigits2 (Zpos m) + e) - e = 0).
  { unfold fexp, emin, prec, emax, Zdigits2. rewrite Hd. lia. }
  unfold binary_round_aux, shr_fexp.
  cbn [shr_record_of_loc]. rewrite Hshift. cbn [shr shr_m loc_of_shr_record
                                                 round_nearest_even].
  rewrite Hshift. cbn [shr shr_m].
  replace (e <=? emax - prec) with true
    by (symmetry; apply Z.leb_le; unfold emax, prec; lia).
  reflexivity.
Qed.

(** A positive integer below [2^53] converts to a finite positive double. *)
Lemma of_int_finite (n : Z) :
  0 < n < 2 ^ 53 -> exists m e, of_int n = S754_finite false m e.
Proof.
  intros Hn. destruct n as [|p|p]; try lia.
  pose proof (digits2_pos_bound p ltac:(lia)) as Hd.
  unfold of_int, binary_normalize, binary_round, shl_align.
  assert (Hfexp : fexp prec emax (Zpos (digits2_pos p) + 0)
                  = Zpos (digits2_pos p) - 53).
  { unfold fexp, emin, prec, emax. lia. }
  rewrite Hfexp.
  destruct (Zpos (digits2_pos p) - 53 - 0) as [|q|q] eqn:E; try lia.
  - exists p, 0. apply binary_round_aux_canonical; lia.
  - exists (Pos.iter xO p q), (Zpos (digits2_pos p) - 53).
    apply binary_round_aux_canonical; [|lia].
    rewrite digits2_pos_iter_xO. lia.
Qed.

(** A finite double divided by itself is one. *)
Lemma div_self (m : positive) (e : Z) :
  div (S754_finite false m e) (S754_finite false m e) = of_int 1.
Proof.
  unfold div, SFdiv, SFdiv_core_binary.
  rewrite !Z.sub_diag.
  change (Z.min (fexp prec emax 0) 0) with (-53).
  change (0 - -53) with 53.
  assert (Hq : Z.div_eucl (Z.shiftl (Zpos m) 53) (Zpos m) = (2 ^ 53, 0)).
  { rewrite Z.shiftl_mul_pow2 by lia.
    pose proof (Z.div_eucl_eq (Zpos m * 2 ^ 53) (Zpos m) ltac:(lia)) as Heq.
    pose proof (Z_div_mult (2 ^ 53) (Zpos m) ltac:(lia)) as Hdiv.
    pose proof (Z_mod_mult (2 ^ 53) (Zpos m)) as Hmod.
    unfold Z.div, Z.modulo in Hdiv, Hmod.
    rewrite (Z.mul_comm (2 ^ 53)) in Hdiv, Hmod.
    destruct (Z.div_eucl (Zpos m * 2 ^ 53) (Zpos m)) as [q r].
    cbn [fst snd] in *. now subst. }
  cbv iota.
  change (IntDef.Z.div_eucl (IntDef.Z.shiftl (Zpos m) 53) (Zpos m))
    with (Z.div_eucl (Z.shiftl (Zpos m) 53) (Zpos m)).
  rewrite Hq. unfold new_location.
  destruct (Z.even (Zpos m)); vm_compute; reflexivity.
Qed.

(** ** Tiles without content *)

Lemma filter_all_true (l : list bool) :
  (forall b, In b l -> b = true) -> filter (fun b : bool => b) l = l.
Proof.
  induction l as [|b l IH]; intros Hall; [reflexivity|].
  cbn [filter]. rewrite (Hall b) by now left.
  f_equal. apply IH. intros; apply Hall; now right.
Qed.

Lemma count_true_uniform (m : Z) (a : list (list bool)) :
  Forall (fun row => len (filter (fun b : bool => b) row) = m) a ->
  count_true a = len a * m.
Proof.
  unfold count_true, len. induction 1 as [|row a Hrow Ha IH]; [reflexivity|].
  cbn [fold_right length]. rewrite IH. unfold len in Hrow. lia.
Qed.

(** The near-white pixels of a tile all of whose pixels are near white. *)
Lemma count_near_white (tile : Image) :
  0 <= im_width tile -> 0 <= im_height tile ->
  (forall x y, inside tile x y = true ->
               let '(r, g, b) := getpixel tile x y in
               240 < r /\ 240 < g /\ 240 < b) ->
  count_true
    (map2d (fun p : pixel =>
              let '(r, g, b) := p in (240 <? r) && (240 <? g) && (240 <? b))
       (array tile))
  = im_width tile * im_height tile.
Proof.
  intros Hw Hh Hwhite.
  rewrite (count_true_uniform (im_width tile)).
  - unfold map2d, array. rewrite !len_map, len_range. lia.
  - unfold map2d, array. rewrite map_map. apply Forall_map.
    apply Forall_forall. intros y Hy. apply in_range in Hy.
    rewrite filter_all_true.
    + rewrite !len_map, len_range. lia.
    + intros b Hb. rewrite map_map in Hb. apply in_map_iff in Hb.
      destruct Hb as (x & <- & Hx). apply in_range in Hx.
      specialize (Hwhite x y).
      destruct (getpixel tile x y) as [[r g] bl].
      destruct Hwhite as (Hr & Hg & Hbl).
      { unfold inside. repeat (apply andb_true_iff; split); lia. }
      repeat (apply andb_true_iff; split); lia.
Qed.

(** X11. A tile all of whose pixels are near white (every channel above
    240) is classified blank at every threshold below 1.0, the default
    0.98 included: its near-white fraction is exactly 1.0.  The tile must
    have at least one pixel and fewer than [2^53]. *)
Theorem near_white_tile_is_blank
        (np_std np_mean : list Z -> float)
        (np_mean_floats : list float -> float) (convert_L : pixel -> Z)
        (tile : Image) (threshold : float) :
  0 < im_width tile -> 0 < im_height tile ->
  im_width tile * im_height tile < 2 ^ 53 ->
  (forall x y, inside tile x y = true ->
               let '(r, g, b) := getpixel tile x y in
               240 < r /\ 240 < g /\ 240 < b) ->
  ltb threshold (of_int 1) = true ->
  is_blank_tile np_std np_mean np_mean_floats convert_L tile threshold
  = Ok true.
Proof.
  intros Hw Hh Hcount Hwhite Hthreshold. unfold is_blank_tile.
  rewrite (count_near_white tile) by (lia || exact Hwhite).
  destruct (of_int_finite (im_width tile * im_height tile)) as (m & e & Hfin);
    [nia|].
  rewrite Hfin, div_self, Hthreshold. reflexivity.
Qed.

Lemma near_white_tile_is_blank_witness :
  is_blank_tile (fun _ => of_int 9) (fun _ => of_int 0) (fun _ => of_int 0)
    (fun p => fst (fst p)) (solid 3 2 (250, 241, 255)) lit_0_98 = Ok true.
Proof.
  apply (near_white_tile_is_blank _ _ _ _ (solid 3 2 (250, 241, 255))).
  - simpl. lia.
  - simpl. lia.
  - simpl. lia.
  - intros x y _. simpl. lia.
  - vm_compute. reflexivity.
Defined.

(** * Properties of the page loop *)

(** ** File names *)

Section FileNames.

Import String.StringSyntax Ascii.AsciiSyntax.
Local Open Scope string_scope.

Lemma occurs_digits (c : Ascii.ascii) (d : Decimal.uint) :
  c = underscore \/ c = dot ->
  occurs c (DecimalString.NilEmpty.string_of_uint d) = false.
Proof.
  intros [-> | ->]; induction d; cbn; auto.
Qed.

(** Neither an underscore nor a dot occurs in the decimal form of an
    integer. *)
Lemma occurs_str (c : Ascii.ascii) (n : Z) :
  c = underscore \/ c = dot -> occurs c (str n) = false.
Proof.
  intros Hc. unfold str.
  destruct (Z.to_int n) as [d | d]; cbn [DecimalString.NilZero.string_of_int].
  - destruct d; try apply (occurs_digits c _ Hc).
    destruct Hc as [-> | ->]; reflexivity.
  - cbn [occurs].
    assert (Hrest : occurs c (DecimalString.NilZero.string_of_uint d)
                    = false).
    { destruct d; try apply (occurs_digits c _ Hc).
      destruct Hc as [-> | ->]; reflexivity. }
    rewrite Hrest. destruct Hc as [-> | ->]; reflexivity.
Qed.

(** A string is cut in one way only at the first occurrence of a
    character. *)
Lemma append_split (c : Ascii.ascii) (a a' r r' : String.string) :
  occurs c a = false -> occurs c a' = false ->
  String.append a (String.String c r) = String.append a' (String.String c r') ->
  a = a' /\ r = r'.
Proof.
  revert a'. induction a as [|x a IH]; intros [|x' a'] Ha Ha' Heq;
    cbn in *.
  - injection Heq as ->. auto.
  - injection Heq as -> _. rewrite Ascii.eqb_refl in Ha'. discriminate.
  - injection Heq as -> _. rewrite Ascii.eqb_refl in Ha. discriminate.
  - injection Heq as -> Heq.
    apply orb_false_iff in Ha. apply orb_false_iff in Ha'.
    destruct (IH a' (proj2 Ha) (proj2 Ha') Heq) as [-> ->]. auto.
Qed.

Lemma str_injective (n m : Z) : str n = str m -> n = m.
Proof.
  unfold str. intros Heq.
  assert (Hnz : forall z, Z.to_int z <> Decimal.Pos Decimal.Nil
                          /\ Z.to_int z <> Decimal.Neg Decimal.Nil).
  { intros [|p|p]; cbn; split; try discriminate;
      intros [= H]; now apply (DecimalPos.Unsigned.to_uint_nonnil p). }
  apply (f_equal DecimalString.NilZero.int_of_string) in Heq.
  rewrite !DecimalString.NilZero.isi in Heq by apply Hnz.
  injection Heq as Heq.
  apply (f_equal Z.of_int) in Heq. now rewrite !DecimalZ.of_to in Heq.
Qed.

Lemma output_filename_determines (p r c p' r' c' : Z) :
  output_filename p r c = output_filename p' r' c' ->
  p = p' /\ r = r' /\ c = c'.
Proof.
  unfold output_filename. intros Heq.
  cbn [String.append] in Heq. injection Heq as Heq.
  apply append_split in Heq;
    [|apply occurs_str; now left | apply occurs_str; now left].
  destruct Heq as [Hp Heq].
  injection Heq as Heq.
  apply append_split in Heq;
    [|apply occurs_str; now left | apply occurs_str; now left].
  destruct Heq as [Hr Heq].
  injection Heq as Heq.
  apply append_split in Heq;
    [|apply occurs_str; now right | apply occurs_str; now right].
  destruct Heq as [Hc _].
  repeat split; now apply str_injective.
Qed.

(** X12. The file name [page_<p>_tile_r<row>_c<col>.jpg] determines the
    page, the row and the column: two tiles get the same file name only if
    they agree on all three. *)
Theorem output_filename_injective (p r c p' r' c' : Z) :
  output_filename p r c = output_filename p' r' c' <->
  p = p' /\ r = r' /\ c = c'.
Proof.
  split.
  - apply output_filename_determines.
  - intros (Hp & Hr & Hc). subst. reflexivity.
Qed.


End FileNames.

(** ** The loop over the tiles of a page *)

Lemma for_each_total {A S : Type} (body : A -> S -> result S) (xs : list A) :
  (forall x, In x xs -> forall s, exists s', body x s = Ok s') ->
  forall s, exists s', for_each xs body s = Ok s'.
Proof.
  induction xs as [|x xs IH]; intros Hbody s; simpl.
  - eexists; reflexivity.
  - destruct (Hbody x (or_introl eq_refl) s) as [s1 ->].
    apply IH. intros; apply Hbody; now right.
Qed.


Lemma map_snd_combine {A B} (ks : list A) (l : list B) :
  length ks = length l -> map snd (combine ks l) = l.
Proof.
  revert l. induction ks as [|k ks IH]; intros [|a l] Hlen;
    try discriminate; [reflexivity|].
  cbn. f_equal. apply IH. now injection Hlen.
Qed.

Lemma length_range_nat (n : nat) : length (range (Z.of_nat n)) = n.
Proof. unfold range. now rewrite length_map, length_seq, Nat2Z.id. Qed.

Lemma map_snd_enumerate {A} (items : list A) :
  map snd (enumerate items) = items.
Proof.
  unfold enumerate, len. apply map_snd_combine. apply length_range_nat.
Qed.









Lemma fold_right_sum_ext {A} (g h : A -> Z) (l : list A) :
  (forall a, In a l -> g a = h a) ->
  fold_right (fun a acc => g a + acc) 0 l
  = fold_right (fun a acc => h a + acc) 0 l.
Proof.
  induction l as [|a l IH]; cbn; intros Hgh; [reflexivity|].
  rewrite (Hgh a) by now left. rewrite IH; [reflexivity|].
  intros; apply Hgh; now right.
Qed.

Lemma fold_right_sum_map {A B} (g : B -> Z) (f : A -> B) (l : list A) :
  fold_right (fun a acc => g (f a) + acc) 0 l
  = fold_right (fun b acc => g b + acc) 0 (map f l).
Proof. induction l as [|a l IH]; cbn; [reflexivity | now rewrite IH]. Qed.

Section PageLoop.

Variable np_std : list Z -> float.
Variable np_mean : list Z -> float.
Variable np_mean_floats : list float -> float.
Variable convert_L : pixel -> Z.
Variable convert : Picture -> String.string -> Picture.
Variable jpeg_size : Image -> Z.
Variable output_dir : String.string.

Local Notation "'save_tile_'" :=
  (save_tile np_std np_mean np_mean_floats convert_L jpeg_size output_dir)
  (only parsing).
Local Notation "'process_page_'" :=
  (process_page np_std np_mean np_mean_floats convert_L convert jpeg_size
     output_dir) (only parsing).
Local Notation "'process_pages_'" :=
  (process_pages np_std np_mean np_mean_floats convert_L convert jpeg_size
     output_dir) (only parsing).
Local Notation "'kept_'" :=
  (kept np_std np_mean np_mean_floats convert_L) (only parsing).
Local Notation "'record_of_'" :=
  (record_of jpeg_size output_dir) (only parsing).
Local Notation "'page_records_'" :=
  (page_records np_std np_mean np_mean_floats convert_L convert jpeg_size
     output_dir) (only parsing).

(** What the inner loop adds to the state when it returns. *)
Lemma save_tiles_spec (i : Z) (tiles : list emitted) :
  forall st st',
    for_each tiles (save_tile_ i) st = Ok st' ->
    converted_files st'
    = converted_files st ++ map (record_of_ i) (filter kept_ tiles) /\
    total_tiles st' = total_tiles st + len (filter kept_ tiles) /\
    total_tiles st' + blank_tiles_filtered st'
    = total_tiles st + blank_tiles_filtered st + len tiles /\
    map fst (disk st')
    = map fst (disk st)
      ++ map path (map (record_of_ i) (filter kept_ tiles)).
Proof.
  induction tiles as [|t tiles IH]; intros st st' Hrun;
    cbn [for_each] in Hrun.
  - inversion Hrun; subst. cbn. rewrite !app_nil_r.
    repeat split; unfold len; cbn; lia.
  - destruct (save_tile_ i t st) as [s1|e] eqn:E; [|discriminate].
    destruct (IH _ _ Hrun) as (Hf & Ht & Hb & Hd). clear IH Hrun.
    unfold save_tile in E. destruct t as [[tile row] col].
    cbn [filter].
    assert (Hk : kept_ (tile, row, col)
                 = match is_blank_tile np_std np_mean np_mean_floats
                           convert_L tile BLANK_THRESHOLD with
                   | Ok false => true
                   | _ => false
                   end) by reflexivity.
    destruct (is_blank_tile np_std np_mean np_mean_floats convert_L tile
                BLANK_THRESHOLD) as [[|]|e'];
      cbn [bind] in E; try discriminate; inversion E; subst s1; clear E;
      rewrite Hk; clear Hk;
      cbn [converted_files total_tiles blank_tiles_filtered disk] in *.
    + rewrite Hf, Ht, Hd. repeat split; try reflexivity.
      unfold len in *. cbn [length]. lia.
    + rewrite Hf, Ht, Hd. cbn [map]. rewrite <- !app_assoc.
      rewrite map_app. cbn [map fst app]. rewrite <- !app_assoc.
      repeat split; try reflexivity.
      * unfold len. cbn [length]. lia.
      * unfold len in *. cbn [length]. lia.
Qed.

Local Notation "'filtered_'" :=
  (filtered np_std np_mean np_mean_floats convert_L) (only parsing).

(** What the loop over the pages adds to the state when it returns. *)
Lemma process_pages_spec (items : list (Z * Picture)) :
  forall st st',
    for_each items process_page_ st = Ok st' ->
    converted_files st'
    = converted_files st ++ flat_map page_records_ items /\
    total_tiles st'
    = total_tiles st + len (flat_map page_records_ items) /\
    total_tiles st' + blank_tiles_filtered st'
    = total_tiles st + blank_tiles_filtered st
      + fold_right (fun item acc => len (page_tiles convert (snd item)) + acc)
          0 items /\
    map fst (disk st')
    = map fst (disk st) ++ map path (flat_map page_records_ items).
Proof.
  induction items as [|[i image] items IH]; intros st st' Hrun;
    cbn [for_each] in Hrun.
  - inversion Hrun; subst. cbn. rewrite !app_nil_r.
    repeat split; unfold len; cbn; lia.
  - destruct (process_page_ (i, image) st) as [s1|e] eqn:E; [|discriminate].
    destruct (IH _ _ Hrun) as (Hf & Ht & Hb & Hd). clear IH Hrun.
    unfold process_page in E.
    assert (Htiles : page_tiles convert image
                     = match tile_image
                               (picture (optimize_for_roboflow convert image))
                               TILE_SIZE OVERLAP with
                       | Ok tiles => tiles
                       | Raise _ => []
                       end) by reflexivity.
    destruct (tile_image (picture (optimize_for_roboflow convert image))
                TILE_SIZE OVERLAP) as [tiles|e']; [|discriminate].
    cbn [bind] in E.
    destruct (save_tiles_spec i tiles _ _ E) as (Hf1 & Ht1 & Hb1 & Hd1).
    cbn [flat_map fold_right snd]. unfold page_records at 1 3 5.
    cbn [fst snd]. rewrite Htiles.
    rewrite Hf, Ht, Hd, Hf1, Ht1, Hd1. rewrite !map_app, <- !app_assoc.
    repeat split; try reflexivity.
    + unfold len. rewrite length_app, length_map. lia.
    + lia.
Qed.

(** The classifier returns on a tile of the configured size. *)
Lemma is_blank_tile_on_tile (tile : Image) :
  size tile = (TILE_SIZE, TILE_SIZE) ->
  exists blank,
    is_blank_tile np_std np_mean np_mean_floats convert_L tile
      BLANK_THRESHOLD = Ok blank.
Proof.
  intros Hsize. unfold size in Hsize. injection Hsize as Hw Hh.
  unfold is_blank_tile.
  destruct (ltb BLANK_THRESHOLD _); [eexists; reflexivity|].
  destruct (ltb (np_std _) _); [eexists; reflexivity|].
  destruct (ltb _ lit_0_001); [eexists; reflexivity|].
  destruct (is_border_frame_returns np_std np_mean np_mean_floats
              (map2d convert_L (array tile))
              (abs_u8 (diff_axis0 (map2d convert_L (array tile))))
              (abs_u8 (diff_axis1 (map2d convert_L (array tile)))))
    as [b Hb].
  - rewrite shape_gray_array, Hw, Hh. unfold TILE_SIZE. cbn [fst snd].
    change (0 <? 1024) with true. cbv iota. lia.
  - rewrite Hb. cbn [bind]. destruct b; eexists; reflexivity.
Qed.

Lemma save_tile_returns (i : Z) (t : emitted) (st : loop_state) :
  size (fst (fst t)) = (TILE_SIZE, TILE_SIZE) ->
  exists st', save_tile_ i t st = Ok st'.
Proof.
  intros Hsize. destruct t as [[tile row] col]. cbn [fst] in Hsize.
  unfold save_tile.
  destruct (is_blank_tile_on_tile tile Hsize) as [[|] ->]; cbn [bind];
    eexists; reflexivity.
Qed.

(** The tiles of a well-formed page: one per cell of its grid, in
    row-major order. *)
Lemma page_tiles_well_formed (image : Picture) :
  well_formed convert image ->
  tile_image (picture (optimize_for_roboflow convert image))
    TILE_SIZE OVERLAP = Ok (page_tiles convert image) /\
  len (page_tiles convert image) = page_cells convert image /\
  map cell_of (page_tiles convert image)
  = row_major
      (code_grid_dim
         (im_height (picture (optimize_for_roboflow convert image)))
         OVERLAP (TILE_SIZE - OVERLAP))
      (code_grid_dim
         (im_width (picture (optimize_for_roboflow convert image)))
         OVERLAP (TILE_SIZE - OVERLAP)).
Proof.
  intros [Hw Hh]. unfold page_tiles, page_cells.
  set (raster := picture (optimize_for_roboflow convert image)) in *.
  rewrite (tile_image_ok raster TILE_SIZE OVERLAP Hw Hh)
    by (unfold TILE_SIZE, OVERLAP; lia).
  split; [reflexivity|]. split.
  - unfold len. rewrite length_map.
    apply length_row_major; etransitivity;
      [| apply code_grid_dim_pos | | apply code_grid_dim_pos]; lia.
  - rewrite map_map. rewrite <- (map_id (row_major _ _)) at 2.
    apply map_ext. intros [r c]. reflexivity.
Qed.

Lemma process_page_returns (item : Z * Picture) (st : loop_state) :
  well_formed convert (snd item) ->
  exists st', process_page_ item st = Ok st'.
Proof.
  destruct item as [i image]. cbn [snd]. intros Hwf.
  destruct (page_tiles_well_formed image Hwf) as (Hrun & _ & _).
  unfold process_page. rewrite Hrun. cbn [bind].
  apply for_each_total. intros [[tile row] col] Hin s.
  apply save_tile_returns. cbn [fst].
  pose proof (tile_image_sized_any_configuration _ _ _ _ Hrun) as Hall.
  rewrite Forall_forall in Hall. exact (Hall _ Hin).
Qed.

Lemma process_pages_returns (images : list Picture) :
  (forall image, In image images -> well_formed convert image) ->
  exists st, process_pages_ images = Ok st.
Proof.
  intros Hwf. unfold process_pages. apply for_each_total.
  intros [i image] Hin s. apply process_page_returns. cbn [snd].
  apply Hwf. unfold enumerate in Hin. now apply in_combine_r in Hin.
Qed.

Local Notation "'initial_'" := initial_state (only parsing).

Lemma save_tile_blank_nonneg (i : Z) (t : emitted) (st st' : loop_state) :
  0 <= blank_tiles_filtered st -> save_tile_ i t st = Ok st' ->
  0 <= blank_tiles_filtered st'.
Proof.
  intros Hst. unfold save_tile. destruct t as [[tile row] col].
  destruct (is_blank_tile _ _ _ _ _ _) as [[|]|e]; cbn [bind];
    intros [= <-]; cbn [blank_tiles_filtered]; lia.
Qed.

Lemma process_pages_blank_nonneg (images : list Picture) (st : loop_state) :
  process_pages_ images = Ok st -> 0 <= blank_tiles_filtered st.
Proof.
  unfold process_pages.
  apply (for_each_invariant (fun s => 0 <= blank_tiles_filtered s));
    [|cbn; lia].
  intros [i image] s s' Hs. unfold process_page.
  destruct (tile_image _ _ _) as [tiles|e]; [|discriminate]. cbn [bind].
  apply (for_each_invariant (fun s => 0 <= blank_tiles_filtered s));
    [|exact Hs].
  intros t u u'. apply save_tile_blank_nonneg.
Qed.


(** X14. The counters of the page loop add up: [total_tiles] is the number
    of entries of [converted_files], [blank_tiles_filtered] is not
    negative, and together they count every cell of the grid of every
    page, so each tile is either saved or counted as filtered. *)
Theorem process_pages_accounts (images : list Picture) :
  (forall image, In image images -> well_formed convert image) ->
  exists st,
    process_pages_ images = Ok st /\
    total_tiles st = len (converted_files st) /\
    0 <= blank_tiles_filtered st /\
    total_tiles st + blank_tiles_filtered st = total_cells convert images.
Proof.
  intros Hwf. destruct (process_pages_returns images Hwf) as [st Hrun].
  exists st. split; [exact Hrun|].
  pose proof (process_pages_blank_nonneg images st Hrun) as Hblank.
  unfold process_pages in Hrun.
  destruct (process_pages_spec _ _ _ Hrun) as (Hf & Ht & Hb & _).
  cbn [initial_state converted_files total_tiles blank_tiles_filtered
         app] in Hf, Ht, Hb.
  split; [|split; [exact Hblank|]].
  - rewrite Hf, Ht. lia.
  - rewrite Hb. unfold total_cells.
    rewrite (fold_right_sum_map (fun p => len (page_tiles convert p)) snd).
    rewrite map_snd_enumerate. cbn [Z.add].
    apply fold_right_sum_ext. intros image Hin.
    now destruct (page_tiles_well_formed image (Hwf image Hin)) as (_ & ? & _).
Qed.



End PageLoop.

Section PageLoopWitnesses.

Import String.StringSyntax.
Local Open Scope string_scope.


Lemma process_pages_accounts_witness :
  exists st,
    process_pages (fun _ => of_int 9) (fun _ => of_int 0)
      (fun _ => of_int 0) (fun p => fst (fst p)) (fun p _ => p)
      (fun _ => 0) "converted/job"
      [mkPicture RGB (solid 2000 1500 black);
       mkPicture RGB (solid 600 800 white)] = Ok st /\
    total_tiles st = len (converted_files st) /\
    0 <= blank_tiles_filtered st /\
    total_tiles st + blank_tiles_filtered st
    = total_cells (fun p _ => p)
        [mkPicture RGB (solid 2000 1500 black);
         mkPicture RGB (solid 600 800 white)].
Proof.
  apply (process_pages_accounts _ _ _ _ _ _ _
           [mkPicture RGB (solid 2000 1500 black);
            mkPicture RGB (solid 600 800 white)]).
  intros image [<- | [<- | []]]; unfold well_formed; cbn; lia.
Defined.


End PageLoopWitnesses.
